(** * Room lifecycle, rate limiting and file-transfer bookkeeping of the
    m_chat gateways, as a shallow embedding in Rocq.

    Three gateway classes are embedded:
    - [Unified]   : src/src/unified.gateway.ts (in-memory registry, cap 100);
    - [Clustered] : src/unnamed/part_003 (same class backed by Redis, cap 50);
    - [IpLimited] : the first class of src/unnamed/part_000 (per-IP
                    fixed-window limiter with a hard block).

    Modelling conventions.
    - A TypeScript [Record<string, T>] or [Map<string, T>] is a [gmap string T].
    - A JavaScript string of message text is a list of UTF-16 code units
      ([list Z]); socket ids and room codes are Rocq [string]s (keys).
    - [Date.now()] is an explicit argument [now]; [Math.random()] is an
      explicit rational draw in [0,1).
    - [server.to(t).emit(e)] appends [mkEmit t None e] to an outbox;
      [client.to(t).emit(e)] appends [mkEmit t (Some client) e] (the
      sender is excluded by socket.io).
    - socket.io channel membership ([client.join(code)]) is a set of
      (socket id, channel) pairs; a disconnecting socket leaves all of them. *)

From Stdlib Require Import ZArith QArith Qround Lqa Lia Ascii String.
From stdpp Require Import base gmap strings list.

Open Scope Z_scope.

(* ------------------------------------------------------------------ *)
(** ** Shared data model *)

Inductive RoomType := Text | Video | Voice.

Definition RoomType_eqb (a b : RoomType) : bool :=
  match a, b with
  | Text, Text | Video, Video | Voice, Voice => true
  | _, _ => false
  end.

Lemma RoomType_eqb_spec a b : RoomType_eqb a b = true <-> a = b.
Proof. destruct a, b; simpl; split; congruence. Qed.

(** JavaScript strings as sequences of UTF-16 code units. *)
Abbreviation jstr := (list Z).

Record Message := mkMessage {
  sender : string;
  text : jstr;
  timestamp : Z;
}.

Record AudioSettings := mkAudio {
  echoCancellation : bool;
  noiseSuppression : bool;
  autoGainControl : bool;
  sampleRate : Z;
}.

Record Room := mkRoom {
  creator : string;
  users : list string;
  type : RoomType;
  messages : option (list Message);
  audioSettings : option AudioSettings;
}.

Definition set_users (r : Room) (us : list string) : Room :=
  mkRoom (creator r) us (type r) (messages r) (audioSettings r).

Definition set_messages (r : Room) (ms : option (list Message)) : Room :=
  mkRoom (creator r) (users r) (type r) ms (audioSettings r).

(** [Array.prototype.includes] on string arrays. *)
Definition includes (l : list string) (x : string) : bool :=
  existsb (fun y => String.eqb y x) l.

Lemma includes_spec l x : includes l x = true <-> x ∈ l.
Proof.
  unfold includes. rewrite existsb_exists. split.
  - intros [y [Hy Heq]]. apply String.eqb_eq in Heq. subst. by apply list_elem_of_In.
  - intros Hx. exists x. split; [by apply list_elem_of_In | apply String.eqb_refl].
Qed.

(** [users.filter((id) => id !== x)] *)
Definition remove_user (l : list string) (x : string) : list string :=
  filter (fun y => negb (String.eqb y x)) l.

(** Events a gateway emits. *)
Inductive Event :=
  | EUserJoined (userId : string) (totalUsers : Z)
  | EUserCount (count : Z)
  | EUserLeft (userId : string) (totalUsers : Z)
  | EUserDisconnected
  | ENewMessage (m : Message)
  | ECallEnded (endedBy : string)
  | EFileTransferStart (transferId : string) (fileName : string) (fileSize : Z)
      (fileType : string) (totalChunks : Z)
  | EFileChunk (transferId : string) (chunkIndex : Z)
  | EFileTransferComplete (transferId : string).

Record Emit := mkEmit {
  target : string;            (* socket.io room (or socket id) addressed *)
  except : option string;     (* [client.to(..)] skips the sending socket *)
  event : Event;
}.

(** Responses returned to the requesting client ([{error}] or success). *)
Inductive Err :=
  | RoomNotFound
  | WrongRoomType
  | NotInRoom
  | NeedTwoUsers
  | InvalidMessage
  | RateLimited
  | TooManyFailedAttempts
  | TooManyJoinAttempts
  | InvalidTransfer
  | FileTooLarge
  | FileTypeRejected
  | NeedExactlyTwoUsers.

Inductive Resp :=
  | RError (e : Err)
  | RCode (code : string)
  | RJoined (msgs : list Message) (totalUsers : Z) (roomType : RoomType)
  | RJoinedLegacy (msgs : list Message) (totalUsers : Z)
  | RFileStarted (transferId : string) (totalChunks : Z)
  | RSuccess
  (* the handler throws a [TypeError]; socket.io gets no acknowledgement *)
  | RTypeError.

(** Property read [obj[k]] on an object created as [{}], such as
    [this.rooms]: an own property, else a member inherited from
    [Object.prototype] (a truthy function, or the prototype itself for
    [__proto__], with neither a [type] nor a [users] property), else
    [undefined]. *)
Inductive JsGet (A : Type) := Own (a : A) | Inherited | Absent.
Arguments Own {A} a.
Arguments Inherited {A}.
Arguments Absent {A}.

Definition object_prototype_keys : list string :=
  ["constructor"; "__defineGetter__"; "__defineSetter__"; "hasOwnProperty";
   "__lookupGetter__"; "__lookupSetter__"; "isPrototypeOf";
   "propertyIsEnumerable"; "toString"; "valueOf"; "__proto__"; "toLocaleString"]%string.

Definition js_get {A} (m : gmap string A) (k : string) : JsGet A :=
  match m !! k with
  | Some a => Own a
  | None => if includes object_prototype_keys k then Inherited else Absent
  end.

(* ------------------------------------------------------------------ *)
(** ** [Number.prototype.toString] on non-negative integers *)

Definition digit_char (d : Z) : ascii := ascii_of_nat (48 + Z.to_nat d).

(** Decimal rendering, most significant digit first; [fuel] bounds the
    number of digits (21 digits cover every integer JavaScript prints
    without an exponent). *)
Fixpoint dec_digits (fuel : nat) (n : Z) : string :=
  match fuel with
  | O => EmptyString
  | S f =>
      if n <? 10 then String (digit_char n) EmptyString
      else (dec_digits f (n / 10) ++ String (digit_char (n mod 10)) EmptyString)%string
  end.

Definition toString (n : Z) : string := dec_digits 21 n.

Definition is_digit (c : ascii) : bool :=
  let k := nat_of_ascii c in (48 <=? k)%nat && (k <=? 57)%nat.

Fixpoint all_digits (s : string) : bool :=
  match s with
  | EmptyString => true
  | String c s' => is_digit c && all_digits s'
  end.

(* ------------------------------------------------------------------ *)
(** ** [generateCode]: six-digit codes, retried on collision *)

(** [Math.floor(100000 + Math.random() * 900000)] for a draw [r]. *)
Definition code_of_draw (r : Q) : Z := Qfloor (inject_Z 100000 + r * inject_Z 900000).

(** [do { code = ... } while (this.rooms[code])]: one draw per iteration.
    [None] when the supplied draws run out before a free code is found
    (the loop has not yet terminated). A stored [Room] object is truthy. *)
Fixpoint generateCode (rooms : gmap string Room) (draws : list Q) : option string :=
  match draws with
  | [] => None
  | r :: rs =>
      let code := toString (code_of_draw r) in
      match rooms !! code with
      | Some _ => generateCode rooms rs
      | None => Some code
      end
  end.

(* ------------------------------------------------------------------ *)
(** ** [validateAndSanitizeMessage] (unified.gateway.ts, part_003)

    Each [String.prototype.replace] with a global regular expression is
    [replace_all m]: scanning left to right, at each position [m] gives
    the length of the match starting there (all five patterns only match
    non-empty text), the match is dropped and the scan resumes after it;
    otherwise the code unit is kept. The [/i] flag compares ASCII letters
    up to case (non-Unicode [Canonicalize] never maps a non-ASCII unit to
    an ASCII one, and every pattern letter is ASCII). *)

(** ASCII literals as code-unit sequences. *)
Definition js (s : string) : jstr :=
  map (fun c => Z.of_nat (nat_of_ascii c)) (list_ascii_of_string s).

(** [\s] and [String.prototype.trim]: WhiteSpace and LineTerminator. *)
Definition is_ws (c : Z) : bool :=
  ((9 <=? c) && (c <=? 13)) || (c =? 32) || (c =? 160) || (c =? 5760)
  || ((8192 <=? c) && (c <=? 8202)) || (c =? 8232) || (c =? 8233)
  || (c =? 8239) || (c =? 8287) || (c =? 12288) || (c =? 65279).

(** [\w] : [A-Za-z0-9_]. *)
Definition is_word (c : Z) : bool :=
  ((48 <=? c) && (c <=? 57)) || ((65 <=? c) && (c <=? 90))
  || ((97 <=? c) && (c <=? 122)) || (c =? 95).

Definition is_quote (c : Z) : bool := (c =? 34) || (c =? 39).

Definition fold_case (c : Z) : Z := if (97 <=? c) && (c <=? 122) then c - 32 else c.

(** Case-insensitive prefix test. *)
Fixpoint prefix_ci (p s : jstr) : bool :=
  match p, s with
  | [], _ => true
  | _ :: _, [] => false
  | a :: p', b :: s' => (fold_case a =? fold_case b) && prefix_ci p' s'
  end.

(** Index of the first occurrence of [p] in [s] (case-insensitive). *)
Fixpoint find_ci (p s : jstr) : option nat :=
  if prefix_ci p s then Some O
  else match s with
       | [] => None
       | _ :: s' => S <$> find_ci p s'
       end.

(** Length of the longest prefix whose units all satisfy [f]. *)
Fixpoint span_len (f : Z -> bool) (s : jstr) : nat :=
  match s with
  | c :: s' => if f c then S (span_len f s') else O
  | [] => O
  end.

Fixpoint gsub (fuel : nat) (m : jstr -> option nat) (s : jstr) : jstr :=
  match fuel with
  | O => s
  | S f =>
      match s with
      | [] => []
      | c :: t =>
          match m s with
          | Some k => gsub f m (drop k s)
          | None => c :: gsub f m t
          end
      end
  end.

Definition replace_all (m : jstr -> option nat) (s : jstr) : jstr := gsub (length s) m s.

(** The script-tag pattern ([<script\b], then [[^<]*] and a starred
    group of a [<] not starting [</script>] followed by [[^<]*], then
    [</script>], flags [gi]): from
    [<script] (followed by a non-word unit or the end) up to the first
    [</script>] after it; every other [<] is consumed by the group. *)
Definition m_script (s : jstr) : option nat :=
  if prefix_ci (js "<script") s then
    let rest := drop 7 s in
    let boundary := match rest with [] => true | c :: _ => negb (is_word c) end in
    if boundary then
      match find_ci (js "</script>") rest with
      | Some i => Some (7 + i + 9)%nat
      | None => None
      end
    else None
  else None.

(** [/<[^>]*>/g] *)
Definition m_tag (s : jstr) : option nat :=
  match s with
  | c :: t =>
      if c =? 60 then
        match find_ci (js ">") t with
        | Some i => Some (i + 2)%nat
        | None => None
        end
      else None
  | [] => None
  end.

(** [/javascript:/gi] *)
Definition m_jsurl (s : jstr) : option nat :=
  if prefix_ci (js "javascript:") s then Some 11%nat else None.

(** [/on\w+\s*=/gi]: [\w+] and [\s*] are greedy and backtracking into
    them cannot expose an [=], so the maximal runs decide the match. *)
Definition m_handler (s : jstr) : option nat :=
  if prefix_ci (js "on") s then
    let w := span_len is_word (drop 2 s) in
    if (w =? 0)%nat then None
    else
      let r := drop (2 + w) s in
      let k := span_len is_ws r in
      match drop k r with
      | c :: _ => if c =? 61 then Some (2 + w + k + 1)%nat else None
      | [] => None
      end
  else None.

(** [/style\s*=\s*[QUOTE][^QUOTE]*[QUOTE]/gi], where [QUOTE] is the class
    of the double quote and the apostrophe (units 34 and 39). *)
Definition m_style (s : jstr) : option nat :=
  if prefix_ci (js "style") s then
    let r1 := drop 5 s in
    let k1 := span_len is_ws r1 in
    match drop k1 r1 with
    | e :: r2 =>
        if e =? 61 then
          let k2 := span_len is_ws r2 in
          match drop k2 r2 with
          | q :: r3 =>
              if is_quote q then
                let k3 := span_len (fun c => negb (is_quote c)) r3 in
                match drop k3 r3 with
                | _ :: _ => Some (5 + k1 + 1 + k2 + 1 + k3 + 1)%nat
                | [] => None
                end
              else None
          | [] => None
          end
        else None
    | [] => None
    end
  else None.

Fixpoint dropWhile (f : Z -> bool) (s : jstr) : jstr :=
  match s with
  | c :: s' => if f c then dropWhile f s' else s
  | [] => []
  end.

(** [String.prototype.trim] *)
Definition trim (s : jstr) : jstr := rev (dropWhile is_ws (rev (dropWhile is_ws s))).

(** [RegExp.prototype.test]: a match starting at some position. *)
Fixpoint search (m : jstr -> bool) (s : jstr) : bool :=
  m s || match s with [] => false | _ :: s' => search m s' end.

Definition ws_then (p : jstr) (c : Z) (s : jstr) : bool :=
  prefix_ci p s &&
  match drop (span_len is_ws (drop (length p) s)) (drop (length p) s) with
  | d :: _ => d =? c
  | [] => false
  end.

(** [dangerousPatterns] *)
Definition dangerous (s : jstr) : bool :=
  search (prefix_ci (js "<iframe")) s
  || search (prefix_ci (js "<object")) s
  || search (prefix_ci (js "<embed")) s
  || search (prefix_ci (js "<form")) s
  || search (prefix_ci (js "<input")) s
  || search (prefix_ci (js "eval(")) s
  || search (prefix_ci (js "Function(")) s
  || search (ws_then (js "setTimeout") 40) s
  || search (ws_then (js "setInterval") 40) s.

Definition MAX_MESSAGE_LENGTH : Z := 5000.

Definition sanitize (trimmed : jstr) : jstr :=
  replace_all m_style (replace_all m_handler (replace_all m_jsurl
    (replace_all m_tag (replace_all m_script trimmed)))).

(** [Some sanitizedText] for [{isValid: true}], [None] for an error. The
    [typeof text !== 'string'] test is vacuous on this typed input. *)
Definition validateAndSanitizeMessage (t : jstr) : option jstr :=
  match t with
  | [] => None
  | _ =>
      let trimmed := trim t in
      if (length trimmed =? 0)%nat then None
      else if MAX_MESSAGE_LENGTH <? Z.of_nat (length trimmed) then None
      else
        let sanitized := sanitize trimmed in
        if dangerous sanitized then None else Some sanitized
  end.

Example sanitize_strips_tags :
  validateAndSanitizeMessage (js "  <b>hi</b> ") = Some (js "hi").
Proof. reflexivity. Qed.

Example sanitize_strips_script :
  validateAndSanitizeMessage (js "a<SCRIPT>x</script>b") = Some (js "ab").
Proof. reflexivity. Qed.

Example sanitize_strips_handler_and_style :
  validateAndSanitizeMessage (js "x onclick =1 style= 'c'y") = Some (js "x 1 y").
Proof. reflexivity. Qed.

Example sanitize_rejects_iframe :
  validateAndSanitizeMessage (js "<iframe src=x") = None.
Proof. reflexivity. Qed.

Example sanitize_rejects_timeout :
  validateAndSanitizeMessage (js "setTimeout  (f)") = None.
Proof. reflexivity. Qed.

Example sanitize_rejects_blank :
  validateAndSanitizeMessage (js "   ") = None.
Proof. reflexivity. Qed.

(* ------------------------------------------------------------------ *)
(** ** File-type validation ([validateFileType])

    File names and MIME types are modelled as strings of 7-bit
    characters, so [toLowerCase] below maps only [A]..[Z]. On other UTF-16
    text JavaScript's [toLowerCase] also maps non-ASCII letters and can
    change the length of a string (['İ'] becomes two code units), which
    this model does not cover. *)

Definition lower_ascii (c : ascii) : ascii :=
  let k := nat_of_ascii c in
  if (65 <=? k)%nat && (k <=? 90)%nat then ascii_of_nat (k + 32) else c.

(** [String.prototype.toLowerCase] on ASCII file names and MIME types. *)
Definition toLowerCase (s : string) : string :=
  string_of_list_ascii (map lower_ascii (list_ascii_of_string s)).

(** [s.lastIndexOf('.')], [-1] when absent. *)
Definition lastIndexOfDot (s : string) : Z :=
  fold_left (fun acc '(i, c) => if Ascii.eqb c "."%char then Z.of_nat i else acc)
    (imap pair (list_ascii_of_string s)) (-1).

(** [s.substring(i)]: a negative start is clamped to 0. *)
Definition substring_from (s : string) (i : Z) : string :=
  String.substring (Z.to_nat (Z.max 0 i)) (String.length s) s.

Definition BLOCKED_EXTENSIONS : list string :=
  [".exe"; ".bat"; ".cmd"; ".com"; ".msi"; ".scr"; ".pif";
   ".vbs"; ".vbe"; ".js"; ".jse"; ".ws"; ".wsf"; ".wsc"; ".wsh";
   ".ps1"; ".psm1"; ".psd1"; ".ps1xml"; ".pssc"; ".psc1";
   ".dll"; ".sys"; ".drv"; ".ocx";
   ".hta"; ".cpl"; ".msc"; ".jar"]%string.

(** The whitelist of unified.gateway.ts. *)
Definition ALLOWED_FILE_TYPES : list string :=
  ["image/jpeg"; "image/png"; "image/gif"; "image/webp"; "image/svg+xml"; "image/bmp";
   "application/pdf"; "text/plain"; "text/csv";
   "application/msword"; "application/vnd.openxmlformats-officedocument.wordprocessingml.document";
   "application/vnd.ms-excel"; "application/vnd.openxmlformats-officedocument.spreadsheetml.sheet";
   "application/vnd.ms-powerpoint"; "application/vnd.openxmlformats-officedocument.presentationml.presentation";
   "application/zip"; "application/x-rar-compressed"; "application/x-7z-compressed"; "application/gzip";
   "audio/mpeg"; "audio/wav"; "audio/ogg"; "audio/webm"; "audio/mp4";
   "video/mp4"; "video/webm"; "video/ogg"; "video/quicktime";
   "application/json"; "application/xml"]%string.

Definition validateFileType (fileName fileType : string) : bool :=
  let ext := substring_from (toLowerCase fileName) (lastIndexOfDot fileName) in
  if includes BLOCKED_EXTENSIONS ext then false
  else if negb (includes ALLOWED_FILE_TYPES (toLowerCase fileType)) then
    String.eqb fileType "application/octet-stream" && negb (includes BLOCKED_EXTENSIONS ext)
  else true.

Example validateFileType_exe : validateFileType "x.exe" "image/png" = false.
Proof. reflexivity. Qed.

Example validateFileType_png : validateFileType "Photo.PNG" "image/png" = true.
Proof. reflexivity. Qed.

(** [Math.ceil(a / b)] for an integer [a] and [b > 0]. *)
Definition ceil_div (a b : Z) : Z := - ((- a) / b).

(** [arr.slice(-n)] for [n > 0]. *)
Definition slice_last {A} (n : nat) (l : list A) : list A := drop (length l - n) l.

(* ------------------------------------------------------------------ *)
(** ** Replies and events of the bookkeeping and signalling handlers

    [cancelFileTransfer], the P2P relays and [audioQuality] return their
    reply together with the events they emit in that call. *)

Inductive Ack := AckSuccess | AckError (error : string).

Inductive Signal :=
  | SFileTransferCancelled (transferId : string)
  | SP2POffer (transferId : string) (roomCode : string)
  | SAudioSettingsUpdate (settings : AudioSettings).

Record SigEmit := mkSigEmit {
  sig_target : string;
  sig_except : option string;
  signal : Signal;
}.

(* ------------------------------------------------------------------ *)
(** * The in-memory gateway: src/src/unified.gateway.ts

    The typing notices, the WebRTC relays (offer, answer, ICE, track) and
    [handleConnection] leave every map untouched and are not embedded. *)

Module Unified.

Record FileTransfer := mkTransfer {
  ft_id : string;
  ft_sender : string;
  ft_receiver : string;
  fileName : string;
  fileSize : Z;
  fileType : string;
  totalChunks : Z;
  receivedChunks : Z;
  ft_timestamp : Z;
}.

(** A pending [setTimeout] callback: the completion notice of a transfer
    (it captures the transfer's receiver and id). *)
Inductive Timer := CompleteTimer (receiver : string) (transferId : string).

Record State := mkState {
  rooms : gmap string Room;
  joined : gset (string * string);  (* socket.io rooms: (socket, channel) *)
  roomLastActivity : gmap string Z;
  fileTransfers : gmap string FileTransfer;
  timers : list Timer;
  outbox : list Emit;
}.

Definition init : State := mkState ∅ ∅ ∅ ∅ [] [].

Definition MAX_FILE_SIZE : Z := 100 * 1024 * 1024.
Definition CHUNK_SIZE : Z := 64 * 1024.
Definition MAX_MESSAGES_PER_ROOM : nat := 100.
Definition ROOM_INACTIVITY_TIMEOUT : Z := 30 * 60 * 1000.

Definition set_rooms (s : State) (rs : gmap string Room) : State :=
  mkState rs (joined s) (roomLastActivity s) (fileTransfers s) (timers s) (outbox s).
Definition set_transfers (s : State) (ts : gmap string FileTransfer) : State :=
  mkState (rooms s) (joined s) (roomLastActivity s) ts (timers s) (outbox s).
Definition emit (s : State) (e : Emit) : State :=
  mkState (rooms s) (joined s) (roomLastActivity s) (fileTransfers s) (timers s) (outbox s ++ [e]).
Definition setTimeout (s : State) (t : Timer) : State :=
  mkState (rooms s) (joined s) (roomLastActivity s) (fileTransfers s) (timers s ++ [t]) (outbox s).
(** [client.join(code)] *)
Definition join_channel (s : State) (client code : string) : State :=
  mkState (rooms s) ({[(client, code)]} ∪ joined s) (roomLastActivity s) (fileTransfers s)
    (timers s) (outbox s).
Definition updateRoomActivity (s : State) (code : string) (now : Z) : State :=
  mkState (rooms s) (joined s) (<[code:=now]> (roomLastActivity s)) (fileTransfers s)
    (timers s) (outbox s).

Definition newRoom (client : string) (ty : RoomType) : Room :=
  mkRoom client [client] ty
    (match ty with Text => Some [] | _ => None end)
    (match ty with Voice => Some (mkAudio true true true 48000) | _ => None end).

(** [createRoom]; [None] when [generateCode] has not terminated within
    the supplied draws. *)
Definition createRoom (client : string) (ty : RoomType) (now : Z) (draws : list Q)
    (s : State) : option (Resp * State) :=
  match generateCode (rooms s) draws with
  | None => None
  | Some code =>
      let s1 := set_rooms s (<[code:=newRoom client ty]> (rooms s)) in
      let s2 := updateRoomActivity s1 code now in
      let s3 := join_channel s2 client code in
      Some (RCode code, s3)
  end.

Definition mismatch (expected : option RoomType) (r : Room) : bool :=
  match expected with
  | Some t => negb (RoomType_eqb (type r) t)
  | None => false
  end.

Definition joinRoom (client code : string) (expectedType : option RoomType) (now : Z)
    (s : State) : Resp * State :=
  match js_get (rooms s) code with
  | Absent => (RError RoomNotFound, s)
  | Inherited =>
      (* [room.type] is undefined, so a supplied kind mismatches; without
         one, [room.users.includes] throws *)
      match expectedType with
      | Some _ => (RError WrongRoomType, s)
      | None => (RTypeError, s)
      end
  | Own room =>
      if mismatch expectedType room then (RError WrongRoomType, s)
      else
        let room' := if includes (users room) client then room
                     else set_users room (users room ++ [client]) in
        let s1 := set_rooms s (<[code:=room']> (rooms s)) in
        let s2 := join_channel s1 client code in
        let s3 := updateRoomActivity s2 code now in
        let n := Z.of_nat (length (users room')) in
        let s4 := emit s3 (mkEmit code None (EUserJoined client n)) in
        let s5 := match type room' with
                  | Voice => emit s4 (mkEmit code None (EUserCount n))
                  | _ => s4
                  end in
        (RJoined (default [] (messages room')) n (type room'), s5)
  end.

(** Append to the buffer, then keep the last [cap] entries. *)
Definition store_message (cap : nat) (ms : list Message) (m : Message) : list Message :=
  let ms' := ms ++ [m] in
  if (cap <? length ms')%nat then slice_last cap ms' else ms'.

Definition handleSendMessage (client code : string) (t : jstr) (now : Z) (s : State)
    : Resp * State :=
  match rooms s !! code with
  | None => (RError NotInRoom, s)
  | Some room =>
      if negb (includes (users room) client) then (RError NotInRoom, s)
      else if (length (users room) <? 2)%nat then (RError NeedTwoUsers, s)
      else
        match validateAndSanitizeMessage t with
        | None => (RError InvalidMessage, s)
        | Some sanitized =>
            let message := mkMessage client sanitized now in
            let s1 := match messages room with
                      | Some ms =>
                          set_rooms s (<[code:=set_messages room
                             (Some (store_message MAX_MESSAGES_PER_ROOM ms message))]> (rooms s))
                      | None => s
                      end in
            let s2 := updateRoomActivity s1 code now in
            (RSuccess, emit s2 (mkEmit code None (ENewMessage message)))
        end
  end.

Definition destroyRoom (code : string) (s : State) : State :=
  emit (set_rooms s (delete code (rooms s))) (mkEmit code None EUserDisconnected).

Definition leaveRoom (client code : string) (s : State) : Resp * State :=
  match rooms s !! code with
  | Some room =>
      if includes (users room) client then
        let us := remove_user (users room) client in
        let s1 := set_rooms s (<[code:=set_users room us]> (rooms s)) in
        if (length us =? 0)%nat then (RSuccess, destroyRoom code s1)
        else
          let n := Z.of_nat (length us) in
          let s2 := emit s1 (mkEmit code None (EUserLeft client n)) in
          let s3 := match type room with
                    | Voice => emit s2 (mkEmit code None (EUserCount n))
                    | _ => s2
                    end in
          (RSuccess, s3)
      else (RSuccess, s)
  | None => (RSuccess, s)
  end.

Definition handleLeaveVoiceRoom (client code : string) (s : State) : Resp * State :=
  let s1 := match rooms s !! code with
            | Some r => match type r with
                        | Voice => emit s (mkEmit code None (ECallEnded client))
                        | _ => s
                        end
            | None => s
            end in
  leaveRoom client code s1.

Definition handleEndCall (client code : string) (s : State) : Resp * State :=
  (RSuccess, destroyRoom code (emit s (mkEmit code None (ECallEnded client)))).

(** [handleDisconnect]: each room is visited once and only its own entry
    is changed, so the resulting registry is a pointwise map over the
    rooms. The emits are listed in the map's key order (JavaScript visits
    the integer-like codes in ascending order). socket.io removes the
    socket from every channel when it disconnects. *)
Definition disconnect_room (client : string) (r : Room) : option Room :=
  if includes (users r) client then
    let us := remove_user (users r) client in
    if (length us =? 0)%nat then None else Some (set_users r us)
  else Some r.

Definition disconnect_emits (client : string) (kr : string * Room) : list Emit :=
  let '(code, r) := kr in
  if includes (users r) client then
    let us := remove_user (users r) client in
    if (length us =? 0)%nat then [mkEmit code None EUserDisconnected]
    else
      let n := Z.of_nat (length us) in
      mkEmit code None (EUserLeft client n)
        :: match type r with Voice => [mkEmit code None (EUserCount n)] | _ => [] end
  else [].

Definition handleDisconnect (client : string) (s : State) : State :=
  mkState
    (omap (disconnect_room client) (rooms s))
    (filter (fun p : string * string => p.1 <> client) (joined s))
    (roomLastActivity s)
    (filter (fun kt : string * FileTransfer =>
               ft_sender kt.2 <> client /\ ft_receiver kt.2 <> client) (fileTransfers s))
    (timers s)
    (outbox s ++ concat (map (disconnect_emits client) (map_to_list (rooms s)))).

(** [cleanupInactiveRooms] with the clock at [now]. *)
Definition stale (now : Z) (la : gmap string Z) (code : string) (r : Room) : bool :=
  (length (users r) =? 0)%nat || (ROOM_INACTIVITY_TIMEOUT <? now - default 0 (la !! code)).

Definition cleanupInactiveRooms (now : Z) (s : State) : State :=
  mkState
    (filter (fun kr : string * Room => stale now (roomLastActivity s) kr.1 kr.2 = false) (rooms s))
    (joined s)
    (filter (fun kv : string * Z =>
               match rooms s !! kv.1 with
               | Some r => stale now (roomLastActivity s) kv.1 r
               | None => false
               end = false) (roomLastActivity s))
    (fileTransfers s) (timers s) (outbox s).

(** [handleSendFile]; [suffix] is [Math.random().toString(36).substr(2, 9)]. *)
Definition handleSendFile (client code : string) (name ftype : string) (size : Z)
    (now : Z) (suffix : string) (s : State) : Resp * State :=
  match rooms s !! code with
  | None => (RError NotInRoom, s)
  | Some room =>
      if negb (includes (users room) client) then (RError NotInRoom, s)
      else if (length (users room) <? 2)%nat then (RError NeedTwoUsers, s)
      else if MAX_FILE_SIZE <? size then (RError FileTooLarge, s)
      else if negb (validateFileType name ftype) then (RError FileTypeRejected, s)
      else
        let total := ceil_div size CHUNK_SIZE in
        let transferId := (client ++ "_" ++ toString now ++ "_" ++ suffix)%string in
        match remove_user (users room) client with
        | [receiver] =>
            let tr := mkTransfer transferId client receiver name size ftype total 0 now in
            let s1 := set_transfers s (<[transferId:=tr]> (fileTransfers s)) in
            let s2 := emit s1 (mkEmit code None
                        (EFileTransferStart transferId name size ftype total)) in
            (RFileStarted transferId total, s2)
        | _ => (RError NeedExactlyTwoUsers, s)
        end
  end.

Definition bump (tr : FileTransfer) : FileTransfer :=
  mkTransfer (ft_id tr) (ft_sender tr) (ft_receiver tr) (fileName tr) (fileSize tr)
    (fileType tr) (totalChunks tr) (receivedChunks tr + 1) (ft_timestamp tr).

(** [handleFileChunk]: the payload's [chunkIndex] is only relayed. *)
Definition handleFileChunk (client transferId : string) (chunkIndex : Z) (s : State)
    : Resp * State :=
  match fileTransfers s !! transferId with
  | Some tr =>
      if String.eqb (ft_sender tr) client then
        let tr' := bump tr in
        let s1 := set_transfers s (<[transferId:=tr']> (fileTransfers s)) in
        let s2 := emit s1 (mkEmit (ft_receiver tr) (Some client)
                             (EFileChunk transferId chunkIndex)) in
        let s3 := if receivedChunks tr' =? totalChunks tr'
                  then setTimeout s2 (CompleteTimer (ft_receiver tr) transferId)
                  else s2 in
        (RSuccess, s3)
      else (RError InvalidTransfer, s)
  | None => (RError InvalidTransfer, s)
  end.

(** The oldest pending callback runs (equal 100 ms delays fire in the
    order they were scheduled). *)
Definition fireTimer (s : State) : option State :=
  match timers s with
  | [] => None
  | CompleteTimer receiver tid :: ts =>
      Some (mkState (rooms s) (joined s) (roomLastActivity s)
              (delete tid (fileTransfers s)) ts
              (outbox s ++ [mkEmit receiver None (EFileTransferComplete tid)]))
  end.

(** A sequence of [fileChunk] events from one client for one transfer id,
    with the given [chunkIndex] payloads, handled in order. *)
Definition deliver_chunks (client transferId : string) (idxs : list Z) (s : State) : State :=
  fold_left (fun s i => snd (handleFileChunk client transferId i s)) idxs s.

(** One handled event. *)
Inductive step : State -> State -> Prop :=
  | st_create c ty now draws s r s' :
      createRoom c ty now draws s = Some (r, s') -> step s s'
  | st_join c code ek now s r s' :
      joinRoom c code ek now s = (r, s') -> step s s'
  | st_send c code t now s r s' :
      handleSendMessage c code t now s = (r, s') -> step s s'
  | st_leave c code s r s' :
      leaveRoom c code s = (r, s') -> step s s'
  | st_leave_voice c code s r s' :
      handleLeaveVoiceRoom c code s = (r, s') -> step s s'
  | st_end c code s r s' :
      handleEndCall c code s = (r, s') -> step s s'
  | st_disconnect c s :
      step s (handleDisconnect c s)
  | st_cleanup now s :
      step s (cleanupInactiveRooms now s)
  | st_send_file c code n ft sz now sfx s r s' :
      handleSendFile c code n ft sz now sfx s = (r, s') -> step s s'
  | st_chunk c tid i s r s' :
      handleFileChunk c tid i s = (r, s') -> step s s'
  | st_timer s s' :
      fireTimer s = Some s' -> step s s'.

Definition reachable (s : State) : Prop := rtc step init s.

(** Registry invariant: every stored room has a member, and every member
    is subscribed to the room's socket.io channel. *)
Definition room_inv (s : State) : Prop :=
  forall code r, rooms s !! code = Some r ->
    users r <> [] /\ forall u, u ∈ users r -> (u, code) ∈ joined s.

Definition TRANSFER_TIMEOUT : Z := 5 * 60 * 1000.

(** [cleanupOldTransfers] with the clock at [now]. *)
Definition cleanupOldTransfers (now : Z) (s : State) : State :=
  set_transfers s
    (filter (fun kt : string * FileTransfer =>
               (TRANSFER_TIMEOUT <? now - ft_timestamp kt.2) = false) (fileTransfers s)).

(** The code of the first room, in the registry's key order, that has
    [client] as a member (the [for ... in] loop with [break]). *)
Definition first_room_of (client : string) (rs : gmap string Room) : option string :=
  head (map fst (List.filter (fun kr : string * Room => includes (users kr.2) client)
                   (map_to_list rs))).

Definition handleCancelFileTransfer (client transferId : string) (s : State)
    : Ack * State * list SigEmit :=
  match fileTransfers s !! transferId with
  | Some tr =>
      if String.eqb (ft_sender tr) client then
        let s1 := set_transfers s (delete transferId (fileTransfers s)) in
        let notice := match first_room_of client (rooms s) with
                      | Some code => [mkSigEmit code None (SFileTransferCancelled transferId)]
                      | None => []
                      end in
        (AckSuccess, s1, notice)
      else (AckError "Transfer not found or not authorized", s, [])
  | None => (AckError "Transfer not found or not authorized", s, [])
  end.

(** [handleP2POffer] (and likewise [handleP2PAnswer] and
    [handleP2PIceCandidate]): the payload goes to [otherUsers[0]] when the
    room has exactly one user other than the sender. *)
Definition handleP2POffer (client roomCode transferId : string) (s : State) : list SigEmit :=
  match rooms s !! roomCode with
  | Some room =>
      match remove_user (users room) client with
      | [other] => [mkSigEmit other None (SP2POffer transferId roomCode)]
      | _ => []
      end
  | None => []
  end.

(** The [roomJoinAttempts] map and [checkJoinRateLimit]; no handler of
    this class calls the check, so the map is kept apart from [State]. *)
Record JoinAttempts := mkAttempts { attempt_count : Z; lastAttempt : Z }.

Definition MAX_JOIN_ATTEMPTS : Z := 5.
Definition JOIN_COOLDOWN : Z := 60 * 1000.

Definition checkJoinRateLimit (clientId : string) (now : Z) (m : gmap string JoinAttempts)
    : bool * gmap string JoinAttempts :=
  match m !! clientId with
  | Some a =>
      if JOIN_COOLDOWN <? now - lastAttempt a then (true, <[clientId:=mkAttempts 1 now]> m)
      else if MAX_JOIN_ATTEMPTS <=? attempt_count a then (false, m)
      else (true, <[clientId:=mkAttempts (attempt_count a + 1) now]> m)
  | None => (true, <[clientId:=mkAttempts 1 now]> m)
  end.

(** [cleanupRateLimitData] with the clock at [now]. *)
Definition cleanupRateLimitData (now : Z) (m : gmap string JoinAttempts)
    : gmap string JoinAttempts :=
  filter (fun kv : string * JoinAttempts =>
            (JOIN_COOLDOWN * 2 <? now - lastAttempt kv.2) = false) m.

(** Successive checks for one client at the given times. *)
Fixpoint join_checks (clientId : string) (times : list Z) (m : gmap string JoinAttempts)
    : list bool * gmap string JoinAttempts :=
  match times with
  | [] => ([], m)
  | now :: rest =>
      let '(ok, m1) := checkJoinRateLimit clientId now m in
      let '(oks, m2) := join_checks clientId rest m1 in
      (ok :: oks, m2)
  end.

End Unified.

(* ------------------------------------------------------------------ *)
(** * The clustered gateway: src/unnamed/part_003

    Same room model, with a message cap of 50, a per-client join rate
    limit kept in Redis, and rooms mirrored to Redis as JSON snapshots.
    Each asynchronous handler is modelled as one atomic step. *)

Module Clustered.

(** The Redis store as this instance sees it: [available] is
    [isConnected && client]; [counters] are the integer keys touched by
    [incr]; [ttls] the expiries set by [expire]; [snapshots] the
    [room:<code>] strings, [None] standing for stored data that
    [JSON.parse] rejects. Other instances may have written any of it. *)
Record Redis := mkRedis {
  available : bool;
  counters : gmap string Z;
  ttls : gmap string Z;
  snapshots : gmap string (option Room);
}.

Record State := mkState {
  rooms : gmap string Room;
  joined : gset (string * string);
  roomLastActivity : gmap string Z;
  redis : Redis;
  outbox : list Emit;
}.

Definition MAX_MESSAGES_PER_ROOM : nat := 50.
Definition MAX_JOIN_ATTEMPTS : Z := 5.

(** [redisService.incr]: [0] when Redis is unavailable. *)
Definition redis_incr (key : string) (r : Redis) : Z * Redis :=
  if available r then
    let c := default 0 (counters r !! key) + 1 in
    (c, mkRedis (available r) (<[key:=c]> (counters r)) (ttls r) (snapshots r))
  else (0, r).

Definition redis_expire (key : string) (secs : Z) (r : Redis) : Redis :=
  if available r then mkRedis (available r) (counters r) (<[key:=secs]> (ttls r)) (snapshots r)
  else r.

Definition set_rooms (s : State) (rs : gmap string Room) : State :=
  mkState rs (joined s) (roomLastActivity s) (redis s) (outbox s).
Definition set_redis (s : State) (r : Redis) : State :=
  mkState (rooms s) (joined s) (roomLastActivity s) r (outbox s).
Definition emit (s : State) (e : Emit) : State :=
  mkState (rooms s) (joined s) (roomLastActivity s) (redis s) (outbox s ++ [e]).
Definition join_channel (s : State) (client code : string) : State :=
  mkState (rooms s) ({[(client, code)]} ∪ joined s) (roomLastActivity s) (redis s) (outbox s).
Definition updateRoomActivity (s : State) (code : string) (now : Z) : State :=
  mkState (rooms s) (joined s) (<[code:=now]> (roomLastActivity s)) (redis s) (outbox s).

Definition checkJoinRateLimit (clientId : string) (s : State) : bool * State :=
  let key := ("rate_limit:join:" ++ clientId)%string in
  let '(count, r1) := redis_incr key (redis s) in
  let r2 := if count =? 1 then redis_expire key 60 r1 else r1 in
  (negb (MAX_JOIN_ATTEMPTS <? count), set_redis s r2).

(** [syncRoomToRedis]: [set(room:<code>, JSON.stringify(room))]. *)
Definition syncRoomToRedis (code : string) (s : State) : State :=
  match rooms s !! code with
  | Some room =>
      if available (redis s) then
        set_redis s (mkRedis true (counters (redis s)) (ttls (redis s))
                       (<[("room:" ++ code)%string:=Some room]> (snapshots (redis s))))
      else s
  | None => s
  end.

(** [loadRoomFromRedis]: a parsed snapshot is cached in [this.rooms]. *)
Definition loadRoomFromRedis (code : string) (s : State) : option Room * State :=
  if available (redis s) then
    match snapshots (redis s) !! ("room:" ++ code)%string with
    | Some (Some room) => (Some room, set_rooms s (<[code:=room]> (rooms s)))
    | _ => (None, s)
    end
  else (None, s).

Definition createRoom (client : string) (ty : RoomType) (now : Z) (draws : list Q)
    (s : State) : option (Resp * State) :=
  match generateCode (rooms s) draws with
  | None => None
  | Some code =>
      let s1 := set_rooms s (<[code:=Unified.newRoom client ty]> (rooms s)) in
      let s2 := updateRoomActivity s1 code now in
      let s3 := syncRoomToRedis code s2 in
      let s4 := join_channel s3 client code in
      Some (RCode code, s4)
  end.

Definition joinRoom (client code : string) (expectedType : option RoomType) (now : Z)
    (s : State) : Resp * State :=
  let '(allowed, s0) := checkJoinRateLimit client s in
  if negb allowed then (RError TooManyJoinAttempts, s0)
  else
    let '(found, s1) := match js_get (rooms s0) code with
                        | Own room => (Own room, s0)
                        | Inherited => (Inherited, s0)
                        | Absent =>
                            match loadRoomFromRedis code s0 with
                            | (Some room, s1) => (Own room, s1)
                            | (None, s1) => (Absent, s1)
                            end
                        end in
    match found with
    | Absent => (RError RoomNotFound, s1)
    | Inherited =>
        match expectedType with
        | Some _ => (RError WrongRoomType, s1)
        | None => (RTypeError, s1)
        end
    | Own room =>
        if Unified.mismatch expectedType room then (RError WrongRoomType, s1)
        else
          let room' := if includes (users room) client then room
                       else set_users room (users room ++ [client]) in
          let s2 := set_rooms s1 (<[code:=room']> (rooms s1)) in
          let s3 := join_channel s2 client code in
          let s4 := updateRoomActivity s3 code now in
          let s5 := syncRoomToRedis code s4 in
          let n := Z.of_nat (length (users room')) in
          let s6 := emit s5 (mkEmit code None (EUserJoined client n)) in
          let s7 := match type room' with
                    | Voice => emit s6 (mkEmit code None (EUserCount n))
                    | _ => s6
                    end in
          (RJoined (default [] (messages room')) n (type room'), s7)
    end.

Definition handleSendMessage (client code : string) (t : jstr) (now : Z) (s : State)
    : Resp * State :=
  match rooms s !! code with
  | None => (RError NotInRoom, s)
  | Some room =>
      if negb (includes (users room) client) then (RError NotInRoom, s)
      else if (length (users room) <? 2)%nat then (RError NeedTwoUsers, s)
      else
        match validateAndSanitizeMessage t with
        | None => (RError InvalidMessage, s)
        | Some sanitized =>
            let message := mkMessage client sanitized now in
            let s1 := match messages room with
                      | Some ms =>
                          set_rooms s (<[code:=set_messages room
                             (Some (Unified.store_message MAX_MESSAGES_PER_ROOM ms message))]>
                             (rooms s))
                      | None => s
                      end in
            let s2 := syncRoomToRedis code s1 in
            (RSuccess, emit s2 (mkEmit code None (ENewMessage message)))
        end
  end.

(** Successive [sendMessage] calls from one client, each with its text
    and its [Date.now()]. *)
Definition send_all (client code : string) (batch : list (jstr * Z)) (s : State) : State :=
  fold_left (fun s tn => snd (handleSendMessage client code tn.1 tn.2 s)) batch s.

(** The messages such a batch stores and broadcasts when every send is
    accepted: the sanitized text with its timestamp. *)
Definition sent_messages (client : string) (batch : list (jstr * Z)) : list Message :=
  map (fun tn => mkMessage client (sanitize (trim tn.1)) tn.2) batch.

Definition destroyRoom (code : string) (s : State) : State :=
  emit (set_rooms s (delete code (rooms s))) (mkEmit code None EUserDisconnected).

(** [leaveRoom]: as in the in-memory gateway; Redis is not touched. *)
Definition leaveRoom (client code : string) (s : State) : Resp * State :=
  match rooms s !! code with
  | Some room =>
      if includes (users room) client then
        let us := remove_user (users room) client in
        let s1 := set_rooms s (<[code:=set_users room us]> (rooms s)) in
        if (length us =? 0)%nat then (RSuccess, destroyRoom code s1)
        else
          let n := Z.of_nat (length us) in
          let s2 := emit s1 (mkEmit code None (EUserLeft client n)) in
          let s3 := match type room with
                    | Voice => emit s2 (mkEmit code None (EUserCount n))
                    | _ => s2
                    end in
          (RSuccess, s3)
      else (RSuccess, s)
  | None => (RSuccess, s)
  end.

(** [redisService.delete(key)], issued only while Redis is available. *)
Definition redis_delete (key : string) (r : Redis) : Redis :=
  if available r then
    mkRedis (available r) (delete key (counters r)) (delete key (ttls r)) (delete key (snapshots r))
  else r.

(** [cleanupInactiveRooms] with the clock at [now]: the same staleness
    test as the in-memory gateway (30 minutes), and the snapshot of each
    removed room is deleted from Redis. *)
Definition cleanupInactiveRooms (now : Z) (s : State) : State :=
  let gone := map fst (List.filter (fun kr : string * Room =>
                         Unified.stale now (roomLastActivity s) kr.1 kr.2)
                         (map_to_list (rooms s))) in
  mkState
    (filter (fun kr : string * Room =>
               Unified.stale now (roomLastActivity s) kr.1 kr.2 = false) (rooms s))
    (joined s)
    (filter (fun kv : string * Z =>
               match rooms s !! kv.1 with
               | Some r => Unified.stale now (roomLastActivity s) kv.1 r
               | None => false
               end = false) (roomLastActivity s))
    (fold_left (fun r code => redis_delete ("room:" ++ code)%string r) gone (redis s))
    (outbox s).

End Clustered.

(* ------------------------------------------------------------------ *)
(** * The IP-limited gateway: src/unnamed/part_000

    Room creation and failed joins are rate limited per client IP, with a
    hard block after too many failed joins. *)

Module IpLimited.

Record RateLimit := mkRateLimit { count : Z; resetTime : Z }.

Record IPTracker := mkTracker {
  codeGenerations : RateLimit;
  joinAttempts : RateLimit;
  blockedUntil : option Z;   (* [undefined] is [None] *)
}.

Inductive LimitType := Generation | Join.

Record State := mkState {
  rooms : gmap string Room;
  joined : gset (string * string);
  ipTracking : gmap string IPTracker;
  outbox : list Emit;
}.

Definition set_rooms (s : State) (rs : gmap string Room) : State :=
  mkState rs (joined s) (ipTracking s) (outbox s).
Definition set_tracking (s : State) (m : gmap string IPTracker) : State :=
  mkState (rooms s) (joined s) m (outbox s).
Definition emit (s : State) (e : Emit) : State :=
  mkState (rooms s) (joined s) (ipTracking s) (outbox s ++ [e]).
Definition join_channel (s : State) (client code : string) : State :=
  mkState (rooms s) ({[(client, code)]} ∪ joined s) (ipTracking s) (outbox s).

(** [tracker.blockedUntil && now < tracker.blockedUntil] *)
Definition blocked (t : IPTracker) (now : Z) : bool :=
  match blockedUntil t with
  | Some b => negb (b =? 0) && (now <? b)
  | None => false
  end.

Definition get_limit (ty : LimitType) (t : IPTracker) : RateLimit :=
  match ty with Generation => codeGenerations t | Join => joinAttempts t end.

Definition set_limit (ty : LimitType) (t : IPTracker) (l : RateLimit) : IPTracker :=
  match ty with
  | Generation => mkTracker l (joinAttempts t) (blockedUntil t)
  | Join => mkTracker (codeGenerations t) l (blockedUntil t)
  end.

Definition set_blocked (t : IPTracker) (b : Z) : IPTracker :=
  mkTracker (codeGenerations t) (joinAttempts t) (Some b).

Definition maxCount (ty : LimitType) : Z :=
  match ty with Generation => 5 | Join => 3 end.

(** [if (now > limit.resetTime) { limit.count = 0; limit.resetTime = now + 60000; }] *)
Definition reset_if_elapsed (now : Z) (limit : RateLimit) : RateLimit :=
  if now >? resetTime limit then mkRateLimit 0 (now + 60000) else limit.

(** [checkRateLimit(ip, type)] at time [now]; the tracker object is
    mutated in place, so every change is written back. *)
Definition checkRateLimit (ip : string) (ty : LimitType) (now : Z)
    (m : gmap string IPTracker) : bool * gmap string IPTracker :=
  let t := match m !! ip with
           | Some t => t
           | None => mkTracker (mkRateLimit 0 (now + 60000)) (mkRateLimit 0 (now + 60000)) None
           end in
  let m0 := <[ip:=t]> m in
  if blocked t now then (false, m0)
  else
    let limit := get_limit ty t in
    let limit1 := reset_if_elapsed now limit in
    if maxCount ty <=? count limit1 then
      let t1 := set_limit ty t limit1 in
      let t2 := match ty with Join => set_blocked t1 (now + 600000) | Generation => t1 end in
      (false, <[ip:=t2]> m)
    else (true, <[ip:=set_limit ty t (mkRateLimit (count limit1 + 1) (resetTime limit1))]> m).

Definition createRoom (client ip : string) (ty : RoomType) (now : Z) (draws : list Q)
    (s : State) : option (Resp * State) :=
  let '(ok, m) := checkRateLimit ip Generation now (ipTracking s) in
  let s0 := set_tracking s m in
  if negb ok then Some (RError RateLimited, s0)
  else
    match generateCode (rooms s0) draws with
    | None => None
    | Some code =>
        let s1 := set_rooms s0 (<[code:=Unified.newRoom client ty]> (rooms s0)) in
        Some (RCode code, join_channel s1 client code)
    end.

(** [joinRoom]: [expectedType] is only logged; only joins to a missing
    code are rate checked; an existing room gets the client pushed. *)
Definition joinRoom (client ip code : string) (expectedType : RoomType) (now : Z)
    (s : State) : Resp * State :=
  match rooms s !! code with
  | None =>
      let '(ok, m) := checkRateLimit ip Join now (ipTracking s) in
      let s0 := set_tracking s m in
      if negb ok then (RError TooManyFailedAttempts, s0) else (RError RoomNotFound, s0)
  | Some room =>
      let room' := set_users room (users room ++ [client]) in
      let s1 := join_channel (set_rooms s (<[code:=room']> (rooms s))) client code in
      let n := Z.of_nat (length (users room')) in
      let s2 := emit s1 (mkEmit code None (EUserJoined client n)) in
      let s3 := match type room' with
                | Voice => emit s2 (mkEmit code None (EUserCount n))
                | _ => s2
                end in
      (RJoinedLegacy (default [] (messages room')) n, s3)
  end.

(** Successive rate checks of one kind from one IP at the given times. *)
Fixpoint check_all (ip : string) (ty : LimitType) (times : list Z)
    (m : gmap string IPTracker) : list bool * gmap string IPTracker :=
  match times with
  | [] => ([], m)
  | now :: rest =>
      let '(ok, m1) := checkRateLimit ip ty now m in
      let '(oks, m2) := check_all ip ty rest m1 in
      (ok :: oks, m2)
  end.

(** [handleSendMessage]: the raw text is stored and broadcast; there is
    no validation and no cap on the buffer. *)
Definition handleSendMessage (client code : string) (t : jstr) (now : Z) (s : State)
    : Resp * State :=
  match rooms s !! code with
  | None => (RError NotInRoom, s)
  | Some room =>
      if negb (includes (users room) client) then (RError NotInRoom, s)
      else if (length (users room) <? 2)%nat then (RError NeedTwoUsers, s)
      else
        let message := mkMessage client t now in
        let s1 := match messages room with
                  | Some ms =>
                      set_rooms s (<[code:=set_messages room (Some (ms ++ [message]))]> (rooms s))
                  | None => s
                  end in
        (RSuccess, emit s1 (mkEmit code None (ENewMessage message)))
  end.

(** Successive [sendMessage] calls from one client, each with its text
    and its [Date.now()]. *)
Definition send_all (client code : string) (batch : list (jstr * Z)) (s : State) : State :=
  fold_left (fun s tn => snd (handleSendMessage client code tn.1 tn.2 s)) batch s.

Definition destroyRoom (code : string) (s : State) : State :=
  emit (set_rooms s (delete code (rooms s))) (mkEmit code None EUserDisconnected).

Definition leaveRoom (client code : string) (s : State) : Resp * State :=
  match rooms s !! code with
  | Some room =>
      if includes (users room) client then
        let us := remove_user (users room) client in
        let s1 := set_rooms s (<[code:=set_users room us]> (rooms s)) in
        if (length us =? 0)%nat then (RSuccess, destroyRoom code s1)
        else
          let n := Z.of_nat (length us) in
          let s2 := emit s1 (mkEmit code None (EUserLeft client n)) in
          let s3 := match type room with
                    | Voice => emit s2 (mkEmit code None (EUserCount n))
                    | _ => s2
                    end in
          (RSuccess, s3)
      else (RSuccess, s)
  | None => (RSuccess, s)
  end.

Inductive Quality := Low | Medium | High.

Definition quality_rate (q : Quality) : Z :=
  match q with Low => 16000 | Medium => 24000 | High => 48000 end.

(** [handleAudioQuality]: [room.audioSettings.sampleRate] is set in
    place and the settings are sent to the rest of the room. *)
Definition handleAudioQuality (client code : string) (q : Quality) (s : State)
    : Ack * State * list SigEmit :=
  match rooms s !! code with
  | Some room =>
      match type room, audioSettings room with
      | Voice, Some a =>
          let a' := mkAudio (echoCancellation a) (noiseSuppression a) (autoGainControl a)
                      (quality_rate q) in
          let room' := mkRoom (creator room) (users room) (type room) (messages room) (Some a') in
          (AckSuccess, set_rooms s (<[code:=room']> (rooms s)),
           [mkSigEmit code (Some client) (SAudioSettingsUpdate a')])
      | _, _ => (AckSuccess, s, [])
      end
  | None => (AckSuccess, s, [])
  end.

End IpLimited.

(** A clustered instance with Redis connected and empty. *)
Definition cl_init : Clustered.State :=
  Clustered.mkState ∅ ∅ ∅ (Clustered.mkRedis true ∅ ∅ ∅) [].

(** On that instance, a text room "550000" created by A and joined by B. *)
Definition cl_two_member_state : Clustered.State :=
  snd (Clustered.joinRoom "B" "550000" None 1
         (match Clustered.createRoom "A" Text 0 [1#2] cl_init with
          | Some (_, s) => s | None => cl_init end)).

(** A text room "550000" created by A and joined by B. *)
Definition two_member_state : Unified.State :=
  snd (Unified.joinRoom "B" "550000" None 1
         (match Unified.createRoom "A" Text 0 [1#2] Unified.init with
          | Some (_, s) => s | None => Unified.init end)).

(** A clustered instance holding a text room "550000" whose only member
    is its creator A. *)
Definition cl_one_member_state : Clustered.State :=
  match Clustered.createRoom "A" Text 0 [1#2] cl_init with
  | Some (_, s) => s | None => cl_init end.

(** A fresh clustered instance sharing the Redis contents of
    [cl_one_member_state] after a sync of room "550000". *)
Definition cl_reloading_state : Clustered.State :=
  Clustered.mkState ∅ ∅ ∅ (Clustered.redis (Clustered.syncRoomToRedis "550000" cl_one_member_state)) [].

(** A clustered instance with Redis down and a one-member text room. *)
Definition cl_down_state : Clustered.State :=
  Clustered.mkState {[ "550000"%string := Unified.newRoom "A" Text ]} ∅ ∅
    (Clustered.mkRedis false ∅ ∅ ∅) [].

(** An in-memory gateway with one transfer "t" from A to B whose
    completion timer is pending. *)
Definition one_transfer_state : Unified.State :=
  Unified.mkState ∅ ∅ ∅
    {[ "t"%string := Unified.mkTransfer "t" "A" "B" "f.txt" 10 "text/plain" 1 1 0 ]}
    [Unified.CompleteTimer "B" "t"] [].

(** IP-limited instances with a text room "550000" of members A, and A and B. *)
Definition ip_one_member_state : IpLimited.State :=
  IpLimited.mkState {[ "550000"%string := mkRoom "A" ["A"] Text (Some []) None ]} ∅ ∅ [].

Definition ip_two_member_state : IpLimited.State :=
  IpLimited.mkState {[ "550000"%string := mkRoom "A" ["A"; "B"] Text (Some []) None ]} ∅ ∅ [].


(* ================================================================== *)
(** * Lemmas *)

(** ** Decimal rendering *)

Lemma string_length_app (a b : string) :
  String.length (a ++ b) = (String.length a + String.length b)%nat.
Proof. induction a as [|c a IH]; simpl; [done | by rewrite IH]. Qed.

Lemma all_digits_app (a b : string) :
  all_digits (a ++ b) = all_digits a && all_digits b.
Proof. induction a as [|c a IH]; simpl; [done | by rewrite IH, andb_assoc]. Qed.

Lemma is_digit_char (d : Z) : 0 <= d <= 9 -> is_digit (digit_char d) = true.
Proof.
  intros Hd.
  assert (d = 0 \/ d = 1 \/ d = 2 \/ d = 3 \/ d = 4 \/ d = 5 \/ d = 6 \/ d = 7
          \/ d = 8 \/ d = 9) as Hc by lia.
  repeat destruct Hc as [-> | Hc]; [reflexivity .. | subst; reflexivity].
Qed.

Local Opaque digit_char.

Lemma dec_digits_spec (k fuel : nat) (n : Z) :
  (k < fuel)%nat -> 10 ^ Z.of_nat k <= n < 10 ^ Z.of_nat (S k) ->
  String.length (dec_digits fuel n) = S k /\ all_digits (dec_digits fuel n) = true.
Proof.
  revert fuel n. induction k as [|k IH]; intros fuel n Hk Hn.
  - destruct fuel as [|f]; [lia |]. simpl in Hn. simpl.
    replace (n <? 10) with true by (symmetry; apply Z.ltb_lt; lia).
    simpl. rewrite is_digit_char by lia. done.
  - destruct fuel as [|f]; [lia |].
    rewrite !Nat2Z.inj_succ, !Z.pow_succ_r in Hn by lia.
    assert (0 < 10 ^ Z.of_nat k) by (apply Z.pow_pos_nonneg; lia).
    simpl. replace (n <? 10) with false by (symmetry; apply Z.ltb_ge; nia).
    destruct (IH f (n / 10)) as [Hl Hd]; [lia | |].
    { rewrite !Nat2Z.inj_succ, !Z.pow_succ_r by lia. split.
      - apply Z.div_le_lower_bound; lia.
      - apply Z.div_lt_upper_bound; lia. }
    rewrite string_length_app, all_digits_app, Hl, Hd. simpl.
    rewrite is_digit_char by (pose proof (Z.mod_pos_bound n 10); lia).
    split; [lia | done].
Qed.

Local Transparent digit_char.

Lemma toString_six_digits (n : Z) :
  100000 <= n <= 999999 -> String.length (toString n) = 6%nat /\ all_digits (toString n) = true.
Proof. intros Hn. apply (dec_digits_spec 5); simpl; lia. Qed.

(** ** [generateCode] *)

Lemma code_of_draw_range (r : Q) :
  (0 <= r < 1)%Q -> 100000 <= code_of_draw r <= 999999.
Proof.
  intros [H0 H1]. unfold code_of_draw.
  set (x := (inject_Z 100000 + r * inject_Z 900000)%Q).
  split.
  - rewrite <- (Qfloor_Z 100000). apply Qfloor_resp_le. subst x.
    unfold inject_Z. lra.
  - pose proof (Qfloor_le x) as Hle.
    assert (inject_Z (Qfloor x) < inject_Z 1000000)%Q as Hlt
      by (subst x; unfold inject_Z in *; lra).
    rewrite <- Zlt_Qlt in Hlt. lia.
Qed.

Lemma generateCode_spec (rooms : gmap string Room) (draws : list Q) (code : string) :
  generateCode rooms draws = Some code ->
  rooms !! code = None /\ exists r, r ∈ draws /\ code = toString (code_of_draw r).
Proof.
  induction draws as [|r rs IH]; simpl; [discriminate |].
  destruct (rooms !! toString (code_of_draw r)) eqn:E.
  - intros H. destruct (IH H) as [Hn [q [Hq ->]]]. split; [done |].
    exists q. split; [by right | done].
  - intros [= <-]. split; [done |]. exists r. split; [left | done].
Qed.

(** ** The registry invariant of the in-memory gateway *)
Section RoomInv.
Import Unified.

Lemma room_inv_init : room_inv init.
Proof. intros code r H. cbn [rooms init] in H. rewrite lookup_empty in H. discriminate. Qed.

Lemma remove_user_elem (l : list string) (x u : string) :
  u ∈ remove_user l x <-> u ∈ l /\ u <> x.
Proof.
  unfold remove_user. rewrite list_elem_of_filter.
  destruct (String.eqb_spec u x); simpl; naive_solver.
Qed.

Lemma room_inv_create c ty now draws s r s' :
  room_inv s -> createRoom c ty now draws s = Some (r, s') -> room_inv s'.
Proof.
  intros Hi H. unfold createRoom in H. case_match; simplify_eq/=.
  intros code r H. simpl in H. rewrite lookup_insert in H. case_decide; simplify_eq/=.
  - split; [done |]. intros u Hu. apply list_elem_of_singleton in Hu. subst. set_solver.
  - destruct (Hi _ _ H) as [Hn Hj]. split; [done |]. intros u Hu. specialize (Hj u Hu). set_solver.
Qed.

Lemma room_inv_join c code ek now s r s' :
  room_inv s -> joinRoom c code ek now s = (r, s') -> room_inv s'.
Proof.
  intros Hi H. unfold joinRoom, js_get in H.
  destruct (rooms s !! code) as [room|] eqn:Hroom; [| repeat case_match; by simplify_eq].
  destruct (mismatch ek room); [by simplify_eq |].
  assert (Hroom' : forall code' r', <[code:=(if includes (users room) c then room
            else set_users room (users room ++ [c]))]> (rooms s) !! code' = Some r' ->
           users r' <> [] /\ forall u, u ∈ users r' -> (u, code') ∈ {[(c, code)]} ∪ joined s).
  { intros code' r' H'. rewrite lookup_insert in H'. case_decide; simplify_eq/=.
    - destruct (Hi _ _ Hroom) as [Hn Hj].
      destruct (includes (users room) c); simpl.
      + split; [done |]. intros u Hu. specialize (Hj u Hu). set_solver.
      + split; [destruct (users room); discriminate |].
        intros u Hu. apply elem_of_app in Hu as [Hu | Hu].
        * specialize (Hj u Hu). set_solver.
        * apply list_elem_of_singleton in Hu. subst. set_solver.
    - destruct (Hi _ _ H') as [Hn Hj]. split; [done |]. intros u Hu. specialize (Hj u Hu). set_solver. }
  repeat case_match; simplify_eq/=; exact Hroom'.
Qed.


Lemma room_inv_ext s s' :
  room_inv s -> rooms s' = rooms s -> joined s ⊆ joined s' -> room_inv s'.
Proof.
  intros Hi Hr Hj code r H. rewrite Hr in H. destruct (Hi _ _ H) as [Hn Hm].
  split; [done |]. intros u Hu. apply Hj, Hm, Hu.
Qed.

Lemma room_inv_insert s code r :
  room_inv s -> users r <> [] -> (forall u, u ∈ users r -> (u, code) ∈ joined s) ->
  room_inv (set_rooms s (<[code:=r]> (rooms s))).
Proof.
  intros Hi Hn Hm code' r' H. simpl in H. rewrite lookup_insert in H.
  case_decide; simplify_eq/=; [done | by apply Hi].
Qed.

Lemma room_inv_delete s code : room_inv s -> room_inv (set_rooms s (delete code (rooms s))).
Proof.
  intros Hi code' r' H. simpl in H. rewrite lookup_delete in H.
  case_decide; [discriminate | by apply Hi].
Qed.

Lemma room_inv_emit s e : room_inv s -> room_inv (emit s e).
Proof. intros Hi. eapply room_inv_ext; [exact Hi | reflexivity | simpl; set_solver]. Qed.

Lemma room_inv_activity s code now : room_inv s -> room_inv (updateRoomActivity s code now).
Proof. intros Hi. eapply room_inv_ext; [exact Hi | reflexivity | simpl; set_solver]. Qed.

Lemma room_inv_timeout s t : room_inv s -> room_inv (setTimeout s t).
Proof. intros Hi. eapply room_inv_ext; [exact Hi | reflexivity | simpl; set_solver]. Qed.

Lemma room_inv_transfers s ts : room_inv s -> room_inv (set_transfers s ts).
Proof. intros Hi. eapply room_inv_ext; [exact Hi | reflexivity | simpl; set_solver]. Qed.

Ltac inv_ext := repeat (apply room_inv_emit || apply room_inv_activity
                        || apply room_inv_timeout || apply room_inv_transfers).

Lemma room_inv_send c code t now s r s' :
  room_inv s -> handleSendMessage c code t now s = (r, s') -> room_inv s'.
Proof.
  intros Hi H. unfold handleSendMessage in H.
  destruct (rooms s !! code) as [room|] eqn:Hroom; [| by simplify_eq].
  destruct (Hi _ _ Hroom) as [Hn Hm].
  repeat case_match; simplify_eq/=; try done;
    inv_ext; try (apply room_inv_insert; done).
Qed.

Lemma room_inv_leave c code s r s' :
  room_inv s -> leaveRoom c code s = (r, s') -> room_inv s'.
Proof.
  intros Hi H. unfold leaveRoom in H.
  destruct (rooms s !! code) as [room|] eqn:Hroom; [| by simplify_eq].
  destruct (Hi _ _ Hroom) as [Hn Hm].
  destruct (includes (users room) c); [| by simplify_eq].
  destruct (length (remove_user (users room) c) =? 0)%nat eqn:Hlen.
  - simplify_eq/=. unfold destroyRoom. inv_ext.
    eapply room_inv_ext; [apply (room_inv_delete s code Hi) | | done].
    simpl. by rewrite delete_insert_eq.
  - apply Nat.eqb_neq in Hlen.
    assert (Hins : room_inv (set_rooms s (<[code:=set_users room (remove_user (users room) c)]> (rooms s)))).
    { apply room_inv_insert; [done | by destruct (remove_user (users room) c) |].
      intros u Hu. apply remove_user_elem in Hu as [Hu _]. by apply Hm. }
    repeat case_match; simplify_eq/=; inv_ext; exact Hins.
Qed.

Lemma room_inv_leave_voice c code s r s' :
  room_inv s -> handleLeaveVoiceRoom c code s = (r, s') -> room_inv s'.
Proof.
  intros Hi H. unfold handleLeaveVoiceRoom in H.
  repeat case_match; (eapply room_inv_leave; [| exact H]); try done; inv_ext; exact Hi.
Qed.

Lemma room_inv_end c code s r s' :
  room_inv s -> handleEndCall c code s = (r, s') -> room_inv s'.
Proof.
  intros Hi H. unfold handleEndCall in H. simplify_eq/=. unfold destroyRoom. inv_ext.
  eapply room_inv_ext; [apply (room_inv_delete s code Hi) | done | done].
Qed.


Lemma room_inv_disconnect c s : room_inv s -> room_inv (handleDisconnect c s).
Proof.
  intros Hi code r H. simpl in H. rewrite lookup_omap in H.
  destruct (rooms s !! code) as [room|] eqn:Hroom; simpl in H; [| discriminate].
  destruct (Hi _ _ Hroom) as [Hn Hm].
  unfold disconnect_room in H. simpl.
  destruct (includes (users room) c) eqn:Hinc.
  - destruct (length (remove_user (users room) c) =? 0)%nat eqn:Hl; [discriminate |].
    injection H as <-. simpl. apply Nat.eqb_neq in Hl. split.
    + by destruct (remove_user (users room) c).
    + intros u Hu. apply remove_user_elem in Hu as [Hu Hne].
      apply elem_of_filter. split; [done | by apply Hm].
  - injection H as <-. split; [done |]. intros u Hu.
    apply elem_of_filter. split; [| by apply Hm]. simpl. intros ->.
    apply includes_spec in Hu. congruence.
Qed.

Lemma room_inv_cleanup now s : room_inv s -> room_inv (cleanupInactiveRooms now s).
Proof.
  intros Hi code r H. simpl in H. apply map_lookup_filter_Some in H as [H _].
  exact (Hi _ _ H).
Qed.

Lemma room_inv_send_file c code n ft sz now sfx s r s' :
  room_inv s -> handleSendFile c code n ft sz now sfx s = (r, s') -> room_inv s'.
Proof.
  intros Hi H. unfold handleSendFile in H.
  repeat case_match; simplify_eq/=; try done; inv_ext; done.
Qed.

Lemma room_inv_chunk c tid i s r s' :
  room_inv s -> handleFileChunk c tid i s = (r, s') -> room_inv s'.
Proof.
  intros Hi H. unfold handleFileChunk in H.
  repeat case_match; simplify_eq/=; try done; inv_ext; done.
Qed.

Lemma room_inv_timer s s' : room_inv s -> fireTimer s = Some s' -> room_inv s'.
Proof.
  intros Hi H. unfold fireTimer in H. repeat case_match; simplify_eq/=.
  eapply room_inv_ext; [exact Hi | done | done].
Qed.

Lemma room_inv_step s s' : step s s' -> room_inv s -> room_inv s'.
Proof.
  intros Hs Hi. destruct Hs.
  - by eapply room_inv_create.
  - by eapply room_inv_join.
  - by eapply room_inv_send.
  - by eapply room_inv_leave.
  - by eapply room_inv_leave_voice.
  - by eapply room_inv_end.
  - by apply room_inv_disconnect.
  - by apply room_inv_cleanup.
  - by eapply room_inv_send_file.
  - by eapply room_inv_chunk.
  - by eapply room_inv_timer.
Qed.

Lemma room_inv_reachable s : reachable s -> room_inv s.
Proof.
  unfold reachable. intros Hr. pose proof room_inv_init as Hi. revert Hi.
  induction Hr as [| x y z Hxy _ IH]; [done |].
  intros Hx. apply IH. by eapply room_inv_step.
Qed.

End RoomInv.

(** ** Message validation *)

Lemma validate_some (t san : jstr) :
  validateAndSanitizeMessage t = Some san ->
  san = sanitize (trim t) /\ dangerous (sanitize (trim t)) = false.
Proof.
  unfold validateAndSanitizeMessage. destruct t as [|c t']; [discriminate |].
  repeat case_match; intros; simplify_eq; done.
Qed.

Lemma validate_dangerous (t : jstr) :
  dangerous (sanitize (trim t)) = true -> validateAndSanitizeMessage t = None.
Proof.
  intros Hd. unfold validateAndSanitizeMessage. destruct t as [|c t']; [done |].
  repeat case_match; congruence.
Qed.

(** ** File transfers *)

Lemma handleFileChunk_accepted (s : Unified.State) (client tid : string) (i : Z)
    (tr : Unified.FileTransfer) :
  Unified.fileTransfers s !! tid = Some tr -> Unified.ft_sender tr = client ->
  Unified.handleFileChunk client tid i s =
    (RSuccess, Unified.mkState (Unified.rooms s) (Unified.joined s) (Unified.roomLastActivity s)
       (<[tid:=Unified.bump tr]> (Unified.fileTransfers s))
       (Unified.timers s ++ (if Unified.receivedChunks tr + 1 =? Unified.totalChunks tr
                             then [Unified.CompleteTimer (Unified.ft_receiver tr) tid] else []))
       (Unified.outbox s ++ [mkEmit (Unified.ft_receiver tr) (Some client) (EFileChunk tid i)])).
Proof.
  intros Hl <-. unfold Unified.handleFileChunk. rewrite Hl, String.eqb_refl.
  cbn [Unified.bump Unified.receivedChunks Unified.totalChunks Unified.ft_receiver].
  destruct (_ =? _); cbn; rewrite ?app_nil_r; reflexivity.
Qed.

(** ** The clustered gateway *)

Lemma check_redis_only (c : string) (cs : Clustered.State) :
  exists r', snd (Clustered.checkJoinRateLimit c cs) = Clustered.set_redis cs r' /\
    Clustered.available r' = Clustered.available (Clustered.redis cs) /\
    Clustered.snapshots r' = Clustered.snapshots (Clustered.redis cs).
Proof.
  unfold Clustered.checkJoinRateLimit, Clustered.redis_incr, Clustered.redis_expire.
  destruct (Clustered.available (Clustered.redis cs)) eqn:Ha.
  - case_match; cbn [snd]; rewrite ?Ha; eexists; (split; [reflexivity |]); cbn; auto.
  - cbn. eexists. split; [reflexivity | auto].
Qed.

Lemma check_allowed_counters (c : string) (cs cs' : Clustered.State) :
  Clustered.available (Clustered.redis cs') = Clustered.available (Clustered.redis cs) ->
  Clustered.counters (Clustered.redis cs') = Clustered.counters (Clustered.redis cs) ->
  fst (Clustered.checkJoinRateLimit c cs') = fst (Clustered.checkJoinRateLimit c cs).
Proof.
  intros Ha Hc. unfold Clustered.checkJoinRateLimit, Clustered.redis_incr.
  rewrite Ha, Hc. destruct (Clustered.available (Clustered.redis cs)); cbn; reflexivity.
Qed.


Lemma store_message_slice {cap : nat} (ms : list Message) (m : Message) :
  Unified.store_message cap ms m = slice_last cap (ms ++ [m]).
Proof.
  unfold Unified.store_message, slice_last.
  destruct (cap <? length (ms ++ [m]))%nat eqn:E; [reflexivity |].
  apply Nat.ltb_ge in E. replace (length (ms ++ [m]) - cap)%nat with 0%nat by lia.
  reflexivity.
Qed.

Lemma slice_last_snoc {A} (cap : nat) (l : list A) (x : A) :
  slice_last cap (slice_last cap l ++ [x]) = slice_last cap (l ++ [x]).
Proof.
  unfold slice_last. rewrite <- drop_app_le by lia. rewrite drop_drop.
  rewrite !length_app, length_drop. cbn [length]. f_equal. rewrite length_app. cbn [length]. lia.
Qed.

Lemma slice_last_short {A} (cap : nat) (l : list A) :
  (length l <= cap)%nat -> slice_last cap l = l.
Proof. intros H. unfold slice_last. replace (length l - cap)%nat with 0%nat by lia. done. Qed.

Lemma clustered_send_step (client code : string) (t : jstr) (now : Z) (s : Clustered.State)
    (room : Room) (ms : list Message) (san : jstr) :
  Clustered.rooms s !! code = Some room -> messages room = Some ms ->
  includes (users room) client = true -> (2 <= length (users room))%nat ->
  validateAndSanitizeMessage t = Some san ->
  exists r', Clustered.handleSendMessage client code t now s =
    (RSuccess, Clustered.mkState
       (<[code:=set_messages room (Some (Unified.store_message Clustered.MAX_MESSAGES_PER_ROOM
                                          ms (mkMessage client san now)))]> (Clustered.rooms s))
       (Clustered.joined s) (Clustered.roomLastActivity s) r'
       (Clustered.outbox s ++ [mkEmit code None (ENewMessage (mkMessage client san now))])) /\
    Clustered.available r' = Clustered.available (Clustered.redis s) /\
    Clustered.counters r' = Clustered.counters (Clustered.redis s).
Proof.
  intros Hr Hms Hin H2 Hv. unfold Clustered.handleSendMessage.
  rewrite Hr, Hin. cbn [negb].
  replace (length (users room) <? 2)%nat with false by (symmetry; apply Nat.ltb_ge; lia).
  rewrite Hv, Hms. unfold Clustered.syncRoomToRedis.
  cbn [Clustered.rooms Clustered.set_rooms]. rewrite lookup_insert_eq.
  cbn [Clustered.redis Clustered.set_rooms].
  destruct (Clustered.available (Clustered.redis s)) eqn:Ha.
  - eexists. split; [reflexivity |]. cbn. auto.
  - eexists. split; [reflexivity |]. cbn. auto.
Qed.

Lemma clustered_join_existing (j code : string) (now : Z) (s : Clustered.State) (room : Room) :
  fst (Clustered.checkJoinRateLimit j s) = true -> Clustered.rooms s !! code = Some room ->
  exists n, fst (Clustered.joinRoom j code None now s) =
    RJoined (default [] (messages room)) n (type room).
Proof.
  intros Hok Hr. destruct (check_redis_only j s) as (r' & Hs & _).
  unfold Clustered.joinRoom.
  destruct (Clustered.checkJoinRateLimit j s) as [allowed s0] eqn:Hc.
  cbn [fst snd] in Hok, Hs. subst allowed s0. cbn [negb Clustered.rooms Clustered.set_redis].
  unfold js_get. rewrite Hr. cbn [Unified.mismatch]. destruct (includes (users room) j); cbn;
    [| destruct (type room)]; eexists; reflexivity.
Qed.

Lemma fold_store_slice (cap : nat) (f : jstr * Z -> Message) (batch : list (jstr * Z)) :
  forall l, fold_left (fun acc tn => Unified.store_message cap acc (f tn)) batch (slice_last cap l)
            = slice_last cap (l ++ map f batch).
Proof.
  induction batch as [|tn rest IH]; intros l; cbn [fold_left map].
  - by rewrite app_nil_r.
  - rewrite store_message_slice, slice_last_snoc, IH, <- app_assoc. reflexivity.
Qed.

Lemma send_all_spec (client code : string) (batch : list (jstr * Z)) :
  forall s room ms,
  Clustered.rooms s !! code = Some room -> messages room = Some ms ->
  includes (users room) client = true -> (2 <= length (users room))%nat ->
  forallb (fun tn => if validateAndSanitizeMessage tn.1 then true else false) batch = true ->
  (exists room', Clustered.rooms (Clustered.send_all client code batch s) !! code = Some room' /\
     users room' = users room /\ type room' = type room /\
     messages room' = Some (fold_left (fun acc tn => Unified.store_message
                              Clustered.MAX_MESSAGES_PER_ROOM acc (mkMessage client (sanitize (trim tn.1)) tn.2)) batch ms)) /\
  Clustered.outbox (Clustered.send_all client code batch s) =
    Clustered.outbox s ++ map (fun tn => mkEmit code None (ENewMessage (mkMessage client (sanitize (trim tn.1)) tn.2))) batch /\
  Clustered.available (Clustered.redis (Clustered.send_all client code batch s)) =
    Clustered.available (Clustered.redis s) /\
  Clustered.counters (Clustered.redis (Clustered.send_all client code batch s)) =
    Clustered.counters (Clustered.redis s).
Proof.
  induction batch as [|[t now] rest IH]; intros s room ms Hr Hms Hin H2 Hv.
  - split; [| by rewrite app_nil_r]. exists room. done.
  - cbn [forallb fst] in Hv.
    destruct (validateAndSanitizeMessage t) as [san|] eqn:Hval; [| discriminate].
    cbn [andb] in Hv.
    destruct (validate_some _ _ Hval) as [-> _].
    destruct (clustered_send_step client code t now s room ms _ Hr Hms Hin H2 Hval)
      as (r' & Hstep & Ha & Hc).
    change (Clustered.send_all client code ((t, now) :: rest) s) with
      (Clustered.send_all client code rest
         (snd (Clustered.handleSendMessage client code (t, now).1 (t, now).2 s))).
    cbn [fst snd]. rewrite Hstep. cbn [snd].
    match goal with |- context [Clustered.send_all client code rest ?s1] =>
      edestruct (IH s1 (set_messages room (Some (Unified.store_message
                 Clustered.MAX_MESSAGES_PER_ROOM ms (mkMessage client (sanitize (trim t)) now))))
                 (Unified.store_message Clustered.MAX_MESSAGES_PER_ROOM ms (mkMessage client (sanitize (trim t)) now)))
        as ((room' & Hr' & Hu & Hty & Hm) & Ho & Ha' & Hc'); [| reflexivity | done | done | done |]
    end.
    { cbn [Clustered.rooms]. apply lookup_insert_eq. }
    split; [| split; [| split]].
    + exists room'. repeat split; [done | done | done |]. rewrite Hm. reflexivity.
    + rewrite Ho. cbn [Clustered.outbox map]. by rewrite <- app_assoc.
    + rewrite Ha'. exact Ha.
    + rewrite Hc'. exact Hc.
Qed.

(** ** The IP-limited gateway *)

Lemma check_unblocked (ip : string) (ty : IpLimited.LimitType) (now : Z)
    (m : gmap string IpLimited.IPTracker) (t : IpLimited.IPTracker) :
  m !! ip = Some t -> IpLimited.blocked t now = false ->
  IpLimited.checkRateLimit ip ty now m =
    if IpLimited.maxCount ty <=? IpLimited.count (IpLimited.reset_if_elapsed now (IpLimited.get_limit ty t))
    then (false, <[ip:=match ty with
                       | IpLimited.Join =>
                           IpLimited.set_blocked (IpLimited.set_limit ty t
                             (IpLimited.reset_if_elapsed now (IpLimited.get_limit ty t))) (now + 600000)
                       | IpLimited.Generation =>
                           IpLimited.set_limit ty t
                             (IpLimited.reset_if_elapsed now (IpLimited.get_limit ty t))
                       end]> m)
    else (true, <[ip:=IpLimited.set_limit ty t (IpLimited.mkRateLimit
            (IpLimited.count (IpLimited.reset_if_elapsed now (IpLimited.get_limit ty t)) + 1)
            (IpLimited.resetTime (IpLimited.reset_if_elapsed now (IpLimited.get_limit ty t))))]> m).
Proof. intros Hm Hb. unfold IpLimited.checkRateLimit. rewrite Hm, Hb. reflexivity. Qed.

Lemma check_blocked (ip : string) (ty : IpLimited.LimitType) (now : Z)
    (m : gmap string IpLimited.IPTracker) (t : IpLimited.IPTracker) :
  m !! ip = Some t -> IpLimited.blocked t now = true ->
  IpLimited.checkRateLimit ip ty now m = (false, m).
Proof. intros Hm Hb. unfold IpLimited.checkRateLimit. rewrite Hm, Hb, insert_id; done. Qed.

Definition fresh_tracker (now : Z) : IpLimited.IPTracker :=
  IpLimited.mkTracker (IpLimited.mkRateLimit 0 (now + 60000))
    (IpLimited.mkRateLimit 0 (now + 60000)) None.

Lemma check_fresh (ip : string) (ty : IpLimited.LimitType) (now : Z)
    (m : gmap string IpLimited.IPTracker) :
  m !! ip = None ->
  IpLimited.checkRateLimit ip ty now m =
    (true, <[ip:=IpLimited.set_limit ty (fresh_tracker now)
                   (IpLimited.mkRateLimit 1 (now + 60000))]> m).
Proof.
  intros Hm. unfold IpLimited.checkRateLimit. rewrite Hm.
  assert (E : (now >? now + 60000) = false) by (rewrite Z.gtb_ltb; apply Z.ltb_ge; lia).
  unfold IpLimited.reset_if_elapsed. destruct ty; cbn; rewrite E; reflexivity.
Qed.

Lemma blocked_same (t t' : IpLimited.IPTracker) (n : Z) :
  IpLimited.blockedUntil t' = IpLimited.blockedUntil t ->
  IpLimited.blocked t' n = IpLimited.blocked t n.
Proof. intros H. unfold IpLimited.blocked. by rewrite H. Qed.

Lemma check_gen_open (ip : string) (now : Z) (m : gmap string IpLimited.IPTracker)
    (t : IpLimited.IPTracker) :
  m !! ip = Some t -> IpLimited.blocked t now = false ->
  now <= IpLimited.resetTime (IpLimited.codeGenerations t) ->
  IpLimited.checkRateLimit ip IpLimited.Generation now m =
    (IpLimited.count (IpLimited.codeGenerations t) <? 5,
     <[ip:=IpLimited.set_limit IpLimited.Generation t
             (if IpLimited.count (IpLimited.codeGenerations t) <? 5
              then IpLimited.mkRateLimit (IpLimited.count (IpLimited.codeGenerations t) + 1)
                     (IpLimited.resetTime (IpLimited.codeGenerations t))
              else IpLimited.codeGenerations t)]> m).
Proof.
  intros Hm Hb Hle.
  rewrite (check_unblocked ip IpLimited.Generation now m t Hm Hb).
  cbn [IpLimited.maxCount IpLimited.get_limit]. unfold IpLimited.reset_if_elapsed.
  rewrite Z.gtb_ltb, (proj2 (Z.ltb_ge _ _) Hle).
  destruct (Z.ltb_spec (IpLimited.count (IpLimited.codeGenerations t)) 5);
    destruct (Z.leb_spec 5 (IpLimited.count (IpLimited.codeGenerations t))); try lia;
    destruct (IpLimited.codeGenerations t); reflexivity.
Qed.

Lemma check_gen_reset (ip : string) (now : Z) (m : gmap string IpLimited.IPTracker)
    (t : IpLimited.IPTracker) :
  m !! ip = Some t -> IpLimited.blocked t now = false ->
  IpLimited.resetTime (IpLimited.codeGenerations t) < now ->
  IpLimited.checkRateLimit ip IpLimited.Generation now m =
    (true, <[ip:=IpLimited.set_limit IpLimited.Generation t (IpLimited.mkRateLimit 1 (now + 60000))]> m).
Proof.
  intros Hm Hb Hlt.
  rewrite (check_unblocked ip IpLimited.Generation now m t Hm Hb).
  cbn [IpLimited.maxCount IpLimited.get_limit]. unfold IpLimited.reset_if_elapsed.
  rewrite (proj2 (Z.gtb_lt _ _) Hlt). reflexivity.
Qed.

Lemma check_all_app (ip : string) (ty : IpLimited.LimitType) (l1 l2 : list Z)
    (m : gmap string IpLimited.IPTracker) :
  fst (IpLimited.check_all ip ty (l1 ++ l2) m) =
    fst (IpLimited.check_all ip ty l1 m) ++
    fst (IpLimited.check_all ip ty l2 (snd (IpLimited.check_all ip ty l1 m))).
Proof.
  revert m. induction l1 as [|n l1 IH]; intros m; [reflexivity |].
  cbn [app IpLimited.check_all].
  destruct (IpLimited.checkRateLimit ip ty n m) as [ok m1].
  specialize (IH m1).
  destruct (IpLimited.check_all ip ty (l1 ++ l2) m1) as [a b].
  destruct (IpLimited.check_all ip ty l1 m1) as [c d]. cbn in *. by rewrite IH.
Qed.

Lemma check_all_cons_eq (ip : string) (ty : IpLimited.LimitType) (n : Z) (rest : list Z)
    (m : gmap string IpLimited.IPTracker) :
  IpLimited.check_all ip ty (n :: rest) m =
    (fst (IpLimited.checkRateLimit ip ty n m) ::
       fst (IpLimited.check_all ip ty rest (snd (IpLimited.checkRateLimit ip ty n m))),
     snd (IpLimited.check_all ip ty rest (snd (IpLimited.checkRateLimit ip ty n m)))).
Proof.
  cbn [IpLimited.check_all].
  destruct (IpLimited.checkRateLimit ip ty n m) as [ok m1]. cbn [fst snd].
  destruct (IpLimited.check_all ip ty rest m1). reflexivity.
Qed.

Lemma check_all_cons (ip : string) (ty : IpLimited.LimitType) (n : Z) (rest : list Z)
    (m : gmap string IpLimited.IPTracker) :
  fst (IpLimited.check_all ip ty (n :: rest) m) =
    fst (IpLimited.checkRateLimit ip ty n m) ::
    fst (IpLimited.check_all ip ty rest (snd (IpLimited.checkRateLimit ip ty n m))).
Proof. by rewrite check_all_cons_eq. Qed.

(** Inside an open generation window with [c] requests counted and no
    active block, the next requests pass while fewer than 5 are counted;
    the window's reset time and the block are left as they were. *)
Lemma gen_window (ip : string) (ts : list Z) (m : gmap string IpLimited.IPTracker)
    (t : IpLimited.IPTracker) :
  m !! ip = Some t ->
  Forall (fun n => IpLimited.blocked t n = false /\
                   n <= IpLimited.resetTime (IpLimited.codeGenerations t)) ts ->
  fst (IpLimited.check_all ip IpLimited.Generation ts m) =
    repeat true (Nat.min (length ts) (Z.to_nat (5 - IpLimited.count (IpLimited.codeGenerations t)))) ++
    repeat false (length ts - Z.to_nat (5 - IpLimited.count (IpLimited.codeGenerations t))) /\
  exists t', snd (IpLimited.check_all ip IpLimited.Generation ts m) !! ip = Some t' /\
    IpLimited.blockedUntil t' = IpLimited.blockedUntil t /\
    IpLimited.resetTime (IpLimited.codeGenerations t') =
      IpLimited.resetTime (IpLimited.codeGenerations t).
Proof.
  revert m t. induction ts as [|n ts IH]; intros m t Hm Hall.
  - split; [reflexivity | by exists t].
  - apply Forall_cons in Hall as [[Hb Hle] Hall].
    rewrite check_all_cons_eq, (check_gen_open ip n m t Hm Hb Hle).
    cbn [fst snd length].
    set (c := IpLimited.count (IpLimited.codeGenerations t)).
    set (R := IpLimited.resetTime (IpLimited.codeGenerations t)).
    set (L := if c <? 5 then IpLimited.mkRateLimit (c + 1) R else IpLimited.codeGenerations t).
    set (t1 := IpLimited.set_limit IpLimited.Generation t L).
    assert (Hbu : IpLimited.blockedUntil t1 = IpLimited.blockedUntil t) by reflexivity.
    assert (HR : IpLimited.resetTime (IpLimited.codeGenerations t1) = R)
      by (subst t1 L; cbn; destruct (c <? 5); reflexivity).
    assert (Hall1 : Forall (fun n => IpLimited.blocked t1 n = false /\
                     n <= IpLimited.resetTime (IpLimited.codeGenerations t1)) ts).
    { eapply Forall_impl; [exact Hall |]. intros x [Hx Hx'].
      rewrite (blocked_same t t1 x Hbu), HR. done. }
    destruct (IH (<[ip:=t1]> m) t1 (lookup_insert_eq _ _ _) Hall1) as [Hf (t' & Ht' & Hb' & Hr')].
    split.
    + rewrite Hf.
      assert (Hc1 : IpLimited.count (IpLimited.codeGenerations t1) = if c <? 5 then c + 1 else c)
        by (subst t1 L; cbn; destruct (c <? 5); reflexivity).
      rewrite Hc1. destruct (Z.ltb_spec c 5).
      * replace (Z.to_nat (5 - c)) with (S (Z.to_nat (5 - (c + 1)))) by lia. reflexivity.
      * replace (Z.to_nat (5 - c)) with 0%nat by lia.
        rewrite Nat.min_0_r, Nat.sub_0_r. reflexivity.
    + exists t'. split; [done |]. split; [by rewrite Hb' | by rewrite Hr'].
Qed.

(** After a first request has opened a generation window at [t1], the
    next four requests up to [t1 + 60000] pass, the fifth fails, and the
    first one after [t1 + 60000] passes again. *)
Lemma gen_after_first (ip : string) (m : gmap string IpLimited.IPTracker)
    (T : IpLimited.IPTracker) (t1 t2 t3 t4 t5 t6 t7 : Z) :
  m !! ip = Some T -> IpLimited.codeGenerations T = IpLimited.mkRateLimit 1 (t1 + 60000) ->
  Forall (fun n => IpLimited.blocked T n = false) [t2; t3; t4; t5; t6; t7] ->
  t2 <= t1 + 60000 -> t3 <= t1 + 60000 -> t4 <= t1 + 60000 ->
  t5 <= t1 + 60000 -> t6 <= t1 + 60000 -> t1 + 60000 < t7 ->
  fst (IpLimited.check_all ip IpLimited.Generation [t2; t3; t4; t5; t6; t7] m) =
    [true; true; true; true; false; true].
Proof.
  intros Hm HT Hb H2 H3 H4 H5 H6 H7.
  rewrite List.Forall_forall in Hb.
  change [t2; t3; t4; t5; t6; t7] with ([t2; t3; t4; t5; t6] ++ [t7]).
  rewrite check_all_app.
  destruct (gen_window ip [t2; t3; t4; t5; t6] m T Hm) as [Hw (T' & HT' & Hbu & Hr)].
  { rewrite HT. cbn [IpLimited.resetTime].
    repeat constructor; try lia; apply Hb; cbn; tauto. }
  rewrite Hw.
  set (m2 := snd (IpLimited.check_all ip IpLimited.Generation [t2; t3; t4; t5; t6] m)) in *.
  rewrite check_all_cons.
  rewrite (check_gen_reset ip t7 m2 T' HT').
  - rewrite HT. reflexivity.
  - rewrite (blocked_same T T' t7 Hbu). apply Hb. cbn. tauto.
  - rewrite Hr, HT. cbn. lia.
Qed.

(* ================================================================== *)
(** * Claims *)

(** C2: every successful [createRoom] (text, video or voice) returns a
    code that is an integer in 100000..999999 rendered in decimal (a
    string of six digit characters), that no live room used before the
    call, and under which the new room is stored with the creator as its
    sole member. [Math.random()] draws lie in [0,1). *)
Theorem createRoom_code_fresh_six_digits (client : string) (ty : RoomType) (now : Z)
    (draws : list Q) (s : Unified.State) (r : Resp) (s' : Unified.State) :
  Forall (fun q => 0 <= q < 1)%Q draws ->
  Unified.createRoom client ty now draws s = Some (r, s') ->
  exists code n,
    r = RCode code /\ 100000 <= n <= 999999 /\ code = toString n /\
    String.length code = 6%nat /\ all_digits code = true /\
    Unified.rooms s !! code = None /\
    exists room, Unified.rooms s' !! code = Some room /\
                 users room = [client] /\ creator room = client.
Proof.
  intros Hdraws Hc. unfold Unified.createRoom in Hc.
  destruct (generateCode (Unified.rooms s) draws) as [code|] eqn:Hg; [| discriminate].
  injection Hc as <- <-.
  destruct (generateCode_spec _ _ _ Hg) as [Hfree [q [Hq ->]]].
  assert (Hr : (0 <= q < 1)%Q) by (rewrite Forall_forall in Hdraws; apply Hdraws, Hq).
  pose proof (code_of_draw_range q Hr) as Hrange.
  destruct (toString_six_digits _ Hrange) as [Hlen Hdig].
  exists (toString (code_of_draw q)), (code_of_draw q).
  do 6 (split; [done |]).
  exists (Unified.newRoom client ty). simpl. rewrite lookup_insert_eq. done.
Qed.

Lemma createRoom_code_fresh_six_digits_witness :
  exists r s',
    Unified.createRoom "A" Text 0 [1#2] Unified.init = Some (r, s') /\
    Forall (fun q => 0 <= q < 1)%Q [1#2] /\
    exists code n,
      r = RCode code /\ 100000 <= n <= 999999 /\ code = toString n /\
      String.length code = 6%nat /\ all_digits code = true /\
      Unified.rooms Unified.init !! code = None /\
      exists room, Unified.rooms s' !! code = Some room /\
                   users room = ["A"%string] /\ creator room = "A"%string.
Proof.
  eexists; eexists. split; [reflexivity |].
  assert (HF : Forall (fun q => 0 <= q < 1)%Q [1#2])
    by (constructor; [split; lra | constructor]).
  split; [exact HF |].
  apply (createRoom_code_fresh_six_digits "A" Text 0 [1#2] Unified.init); [exact HF | reflexivity].
Defined.



(** A reachable state with a two-member text room under code 550000. *)
Lemma two_member_state_reachable : Unified.reachable two_member_state.
Proof.
  eapply rtc_l; [eapply (Unified.st_create "A" Text 0 [1#2]); reflexivity |].
  eapply rtc_l; [eapply (Unified.st_join "B" "550000" None 1); reflexivity |].
  apply rtc_refl.
Qed.

(** C4 (counterexample): with two members, a member's blank message is
    not accepted: [sendMessage] answers with an error. *)
Lemma sendMessage_two_members_blank_rejected :
  Unified.reachable two_member_state /\
  (exists room, Unified.rooms two_member_state !! "550000"%string = Some room /\
                "A"%string ∈ users room /\ (2 <= length (users room))%nat) /\
  fst (Unified.handleSendMessage "A" "550000" (js "   ") 2 two_member_state)
    = RError InvalidMessage.
Proof.
  split; [exact two_member_state_reachable |]. split; [| reflexivity].
  eexists. split; [reflexivity |]. split; [| simpl; lia].
  simpl. set_solver.
Qed.

(** C4 (amended): for a [sendMessage] by a member of an existing room of
    a reachable state: below two members it is rejected with
    [NeedTwoUsers] and nothing changes; with two or more members, a text
    that fails [validateAndSanitizeMessage] is rejected and nothing
    changes, and a text that passes it is accepted: one [newMessage] with
    the sanitized text is emitted to the room's channel, to which every
    member is subscribed, and in a text room the message is appended to
    the stored buffer (which then keeps its last 100 entries). *)
Theorem sendMessage_membership_gate (s : Unified.State) (client code : string) (t : jstr)
    (now : Z) (room : Room) :
  Unified.reachable s -> Unified.rooms s !! code = Some room -> client ∈ users room ->
  ((length (users room) < 2)%nat ->
     Unified.handleSendMessage client code t now s = (RError NeedTwoUsers, s)) /\
  ((2 <= length (users room))%nat -> validateAndSanitizeMessage t = None ->
     Unified.handleSendMessage client code t now s = (RError InvalidMessage, s)) /\
  ((2 <= length (users room))%nat -> forall sanitized,
     validateAndSanitizeMessage t = Some sanitized ->
     exists s', Unified.handleSendMessage client code t now s = (RSuccess, s') /\
       Unified.outbox s' = Unified.outbox s ++
         [mkEmit code None (ENewMessage (mkMessage client sanitized now))] /\
       (forall u, u ∈ users room -> (u, code) ∈ Unified.joined s') /\
       (forall ms, messages room = Some ms ->
          exists room', Unified.rooms s' !! code = Some room' /\
            users room' = users room /\
            messages room' = Some (Unified.store_message Unified.MAX_MESSAGES_PER_ROOM ms
                                     (mkMessage client sanitized now)))).
Proof.
  intros Hreach Hr Hin.
  destruct (room_inv_reachable s Hreach _ _ Hr) as [_ Hj].
  assert (Hinc : includes (users room) client = true) by (by apply includes_spec).
  unfold Unified.handleSendMessage. rewrite Hr, Hinc. simpl.
  split; [| split].
  - intros Hlt. apply Nat.ltb_lt in Hlt. by rewrite Hlt.
  - intros Hge Hv. apply Nat.ltb_ge in Hge. by rewrite Hge, Hv.
  - intros Hge san Hv. apply Nat.ltb_ge in Hge. rewrite Hge, Hv.
    destruct (messages room) as [ms|] eqn:Hms.
    + eexists. split; [reflexivity |]. simpl. split; [done |]. split.
      * intros u Hu. by apply Hj.
      * intros ms' [= <-]. eexists. rewrite lookup_insert_eq. split; [reflexivity |]. done.
    + eexists. split; [reflexivity |]. simpl. split; [done |]. split.
      * intros u Hu. by apply Hj.
      * intros ms' Hc. discriminate.
Qed.

Lemma sendMessage_membership_gate_witness :
  Unified.reachable two_member_state /\
  Unified.rooms two_member_state !! "550000"%string =
    Some (mkRoom "A" ["A"; "B"]%string Text (Some []) None) /\
  "A"%string ∈ ["A"; "B"]%string /\
  exists s', Unified.handleSendMessage "A" "550000" (js "hi") 2 two_member_state = (RSuccess, s') /\
    Unified.outbox s' = Unified.outbox two_member_state ++
      [mkEmit "550000" None (ENewMessage (mkMessage "A" (js "hi") 2))].
Proof.
  assert (Hr : Unified.rooms two_member_state !! "550000"%string =
                 Some (mkRoom "A" ["A"; "B"]%string Text (Some []) None)) by reflexivity.
  assert (Hin : "A"%string ∈ ["A"; "B"]%string) by set_solver.
  split; [exact two_member_state_reachable |]. split; [exact Hr |]. split; [exact Hin |].
  destruct (sendMessage_membership_gate two_member_state "A" "550000" (js "hi") 2 _
              two_member_state_reachable Hr Hin) as [_ [_ H]].
  destruct (H ltac:(simpl; lia) (js "hi") eq_refl) as [s' [Hs [Ho _]]].
  exists s'. split; [exact Hs | exact Ho].
Defined.

(** C10: a successful [sendMessage] broadcasts, and stores in a text
    room's buffer, the sanitized text [sanitize (trim t)] (trimmed; script
    blocks, tags, [javascript:], event-handler prefixes and style
    attributes removed), which passed the dangerous-pattern check; the
    delivered text can differ from the submitted one; and a text whose
    sanitized form still matches a dangerous pattern is answered with an
    error and changes nothing. *)
Theorem sendMessage_delivers_sanitized (s : Unified.State) (client code : string)
    (t : jstr) (now : Z) :
  (forall s', Unified.handleSendMessage client code t now s = (RSuccess, s') ->
     validateAndSanitizeMessage t = Some (sanitize (trim t)) /\
     dangerous (sanitize (trim t)) = false /\
     Unified.outbox s' = Unified.outbox s ++
       [mkEmit code None (ENewMessage (mkMessage client (sanitize (trim t)) now))] /\
     (forall room ms, Unified.rooms s !! code = Some room -> messages room = Some ms ->
        exists room', Unified.rooms s' !! code = Some room' /\
          messages room' = Some (Unified.store_message Unified.MAX_MESSAGES_PER_ROOM ms
                                   (mkMessage client (sanitize (trim t)) now)))) /\
  (dangerous (sanitize (trim t)) = true ->
     exists e, Unified.handleSendMessage client code t now s = (RError e, s)) /\
  validateAndSanitizeMessage (js " <b>hi</b> ") = Some (js "hi").
Proof.
  split; [| split; [| reflexivity]].
  - intros s' H. unfold Unified.handleSendMessage in H.
    destruct (Unified.rooms s !! code) as [room|] eqn:Hr; [| discriminate].
    destruct (negb (includes (users room) client)); [discriminate |].
    destruct (length (users room) <? 2)%nat; [discriminate |].
    destruct (validateAndSanitizeMessage t) as [san|] eqn:Hv; [| discriminate].
    destruct (validate_some _ _ Hv) as [-> Hd].
    split; [done |]. split; [done |].
    destruct (messages room) as [ms|] eqn:Hms; injection H as <-.
    + split; [done |]. intros room0 ms0 Hr0 Hms0.
      injection Hr0 as <-. assert (ms0 = ms) as -> by congruence.
      eexists. simpl. rewrite lookup_insert_eq. split; [reflexivity | done].
    + split; [done |]. intros room0 ms0 Hr0 Hms0.
      injection Hr0 as <-. congruence.
  - intros Hd. pose proof (validate_dangerous t Hd) as Hv.
    unfold Unified.handleSendMessage.
    destruct (Unified.rooms s !! code) as [room|]; [| by eexists].
    destruct (negb (includes (users room) client)); [by eexists |].
    destruct (length (users room) <? 2)%nat; [by eexists |].
    rewrite Hv. by eexists.
Qed.

Lemma sendMessage_delivers_sanitized_witness :
  dangerous (sanitize (trim (js "eval(x)"))) = true /\
  (exists e, Unified.handleSendMessage "A" "550000" (js "eval(x)") 2 two_member_state
               = (RError e, two_member_state)) /\
  (exists s', Unified.handleSendMessage "A" "550000" (js " <b>hi</b> ") 2 two_member_state
                = (RSuccess, s') /\
     Unified.outbox s' = Unified.outbox two_member_state ++
       [mkEmit "550000" None (ENewMessage (mkMessage "A" (sanitize (trim (js " <b>hi</b> "))) 2))]).
Proof.
  assert (Hd : dangerous (sanitize (trim (js "eval(x)"))) = true) by reflexivity.
  split; [exact Hd |]. split.
  - exact (proj1 (proj2 (sendMessage_delivers_sanitized two_member_state "A" "550000"
                           (js "eval(x)") 2)) Hd).
  - pose (s' := snd (Unified.handleSendMessage "A" "550000" (js " <b>hi</b> ") 2
                        two_member_state)).
    assert (Hs : Unified.handleSendMessage "A" "550000" (js " <b>hi</b> ") 2 two_member_state
                 = (RSuccess, s')) by (unfold s'; vm_compute; reflexivity).
    exists s'. split; [exact Hs |].
    exact (proj1 (proj2 (proj2 (proj1 (sendMessage_delivers_sanitized two_member_state
             "A" "550000" (js " <b>hi</b> ") 2) s' Hs)))).
Defined.

(** C9: the completion check counts accepted [fileChunk] events, not
    distinct chunk indices. Each accepted event (transfer id present,
    sender matching) increments [receivedChunks] by exactly one whatever
    its [chunkIndex]; so for any list of payload indices, repeated or not,
    whose length brings the count up to [totalChunks], the count reaches
    [totalChunks] and exactly one completion callback is scheduled, at the
    last event; the indices are only relayed. *)
Theorem fileChunk_counts_events (s : Unified.State) (client tid : string)
    (tr : Unified.FileTransfer) (idxs : list Z) :
  Unified.fileTransfers s !! tid = Some tr -> Unified.ft_sender tr = client ->
  Unified.receivedChunks tr + Z.of_nat (length idxs) <= Unified.totalChunks tr ->
  (exists tr', Unified.fileTransfers (Unified.deliver_chunks client tid idxs s) !! tid = Some tr' /\
     Unified.receivedChunks tr' = Unified.receivedChunks tr + Z.of_nat (length idxs) /\
     Unified.totalChunks tr' = Unified.totalChunks tr /\
     Unified.ft_sender tr' = client /\ Unified.ft_receiver tr' = Unified.ft_receiver tr) /\
  Unified.timers (Unified.deliver_chunks client tid idxs s) =
    Unified.timers s ++
      (match idxs with
       | [] => []
       | _ => if Unified.receivedChunks tr + Z.of_nat (length idxs) =? Unified.totalChunks tr
              then [Unified.CompleteTimer (Unified.ft_receiver tr) tid] else []
       end) /\
  Unified.outbox (Unified.deliver_chunks client tid idxs s) =
    Unified.outbox s ++ map (fun i => mkEmit (Unified.ft_receiver tr) (Some client)
                                         (EFileChunk tid i)) idxs.
Proof.
  revert s tr. induction idxs as [|i rest IH]; intros s tr Hl Hs Hle.
  - split; [| by rewrite !app_nil_r]. exists tr. split; [done |]. simpl. split; [lia | done].
  - change (Unified.deliver_chunks client tid (i :: rest) s) with
      (Unified.deliver_chunks client tid rest (snd (Unified.handleFileChunk client tid i s))).
    rewrite (handleFileChunk_accepted s client tid i tr Hl Hs). cbn [snd].
    cbn [length] in Hle. rewrite Nat2Z.inj_succ in Hle.
    match goal with |- context [Unified.deliver_chunks client tid rest ?s1] =>
      destruct (IH s1 (Unified.bump tr)) as (Htr & Ht & Ho) end.
    { cbn [Unified.fileTransfers]. apply lookup_insert_eq. }
    { done. }
    { cbn [Unified.bump Unified.receivedChunks Unified.totalChunks]. lia. }
    cbn [Unified.bump Unified.receivedChunks Unified.totalChunks Unified.ft_receiver
         Unified.ft_sender Unified.timers Unified.outbox] in Htr, Ht, Ho.
    split; [| split].
    + destruct Htr as (tr' & H1 & H2 & H3 & H4 & H5). exists tr'.
      cbn [length]. rewrite Nat2Z.inj_succ. repeat split; try done; lia.
    + rewrite Ht, <- app_assoc. f_equal. cbn [length]. rewrite Nat2Z.inj_succ.
      destruct rest as [|j rest'].
      * rewrite app_nil_r. simpl. reflexivity.
      * cbn [length] in Hle, Ht |- *. rewrite Nat2Z.inj_succ in Hle |- *.
        assert (Hne : (Unified.receivedChunks tr + 1 =? Unified.totalChunks tr) = false)
          by (apply Z.eqb_neq; lia).
        rewrite Hne. simpl.
        replace (Unified.receivedChunks tr + Z.succ (Z.succ (Z.of_nat (length rest'))))
          with (Unified.receivedChunks tr + 1 + Z.succ (Z.of_nat (length rest'))) by lia.
        reflexivity.
    + rewrite Ho, <- app_assoc. reflexivity.
Qed.

Lemma fileChunk_counts_events_witness :
  let tr := Unified.mkTransfer "t" "A" "B" "a.txt" 100000 "text/plain" 2 0 0 in
  let s := Unified.set_transfers two_member_state (<["t":=tr]> ∅) in
  Unified.timers (Unified.deliver_chunks "A" "t" [0; 0] s) =
    Unified.timers s ++ [Unified.CompleteTimer "B" "t"].
Proof.
  intros tr s.
  exact (proj1 (proj2 (fileChunk_counts_events s "A" "t" tr [0; 0]
                         (lookup_insert_eq _ _ _) eq_refl ltac:(simpl; lia)))).
Defined.

(** C7 (behaviour at size 0): [sendFile] accepts a file of declared size
    0 and records [totalChunks = ceil(0/C) = 0] with [receivedChunks = 0];
    no sequence of [fileChunk] events from the sender for that transfer id
    ever schedules the completion callback (each event leaves
    [receivedChunks >= 1], which never equals 0), so no
    [fileTransferComplete] is emitted for it. *)
Theorem sendFile_empty_never_completes (s : Unified.State) (client code name ftype : string)
    (now : Z) (suffix tid : string) (total : Z) (s1 : Unified.State) :
  Unified.handleSendFile client code name ftype 0 now suffix s = (RFileStarted tid total, s1) ->
  total = 0 /\
  (exists tr, Unified.fileTransfers s1 !! tid = Some tr /\
     Unified.totalChunks tr = 0 /\ Unified.receivedChunks tr = 0) /\
  forall idxs, Unified.timers (Unified.deliver_chunks client tid idxs s1) = Unified.timers s.
Proof.
  assert (Hinv : forall st, (forall tr, Unified.fileTransfers st !! tid = Some tr ->
                   Unified.totalChunks tr = 0 /\ 0 <= Unified.receivedChunks tr) ->
          forall idxs, Unified.timers (Unified.deliver_chunks client tid idxs st) =
                       Unified.timers st).
  { intros st Hst idxs. revert st Hst. induction idxs as [|i rest IH]; intros st Hst; [done |].
    change (Unified.deliver_chunks client tid (i :: rest) st) with
      (Unified.deliver_chunks client tid rest (snd (Unified.handleFileChunk client tid i st))).
    case_eq (Unified.fileTransfers st !! tid); [intros tr Hl | intros Hl].
    2:{ unfold Unified.handleFileChunk. rewrite Hl. apply IH, Hst. }
    destruct (String.eqb_spec (Unified.ft_sender tr) client) as [Hs|Hs].
    2:{ unfold Unified.handleFileChunk. rewrite Hl. apply String.eqb_neq in Hs. rewrite Hs.
        apply IH, Hst. }
    destruct (Hst tr Hl) as [Ht Hr].
    rewrite (handleFileChunk_accepted st client tid i tr Hl Hs). cbn [snd].
    rewrite IH.
    - cbn [Unified.timers]. rewrite Ht. destruct (_ =? 0) eqn:E; [lia | apply app_nil_r].
    - intros tr'. cbn [Unified.fileTransfers]. rewrite lookup_insert_eq.
      intros [= <-]. cbn. lia. }
  intros H. unfold Unified.handleSendFile in H.
  repeat (case_match; try discriminate). injection H as <- <- <-.
  split; [reflexivity |]. split.
  - eexists. cbn [Unified.emit Unified.set_transfers Unified.fileTransfers].
    rewrite lookup_insert_eq. split; [reflexivity | split; reflexivity].
  - intros idxs. rewrite Hinv; [reflexivity |].
    intros tr. cbn [Unified.emit Unified.set_transfers Unified.fileTransfers].
    rewrite lookup_insert_eq. intros [= <-]. split; [reflexivity | cbn; lia].
Qed.

Lemma sendFile_empty_never_completes_witness :
  Unified.handleSendFile "A" "550000" "a.txt" "text/plain" 0 5 "x" two_member_state
    = (RFileStarted "A_5_x" 0,
       snd (Unified.handleSendFile "A" "550000" "a.txt" "text/plain" 0 5 "x" two_member_state)) /\
  Unified.timers (Unified.deliver_chunks "A" "A_5_x" [0; 1; 2]
     (snd (Unified.handleSendFile "A" "550000" "a.txt" "text/plain" 0 5 "x" two_member_state)))
    = [].
Proof.
  assert (H : Unified.handleSendFile "A" "550000" "a.txt" "text/plain" 0 5 "x" two_member_state
    = (RFileStarted "A_5_x" 0,
       snd (Unified.handleSendFile "A" "550000" "a.txt" "text/plain" 0 5 "x" two_member_state)))
    by (vm_compute; reflexivity).
  split; [exact H |].
  rewrite (proj2 (proj2 (sendFile_empty_never_completes _ _ _ _ _ _ _ _ _ _ H)) [0; 1; 2]).
  vm_compute. reflexivity.
Defined.




(** C8: in the clustered gateway (cap 50), when a member of a room with
    at least two members and a buffer of at most 50 messages sends a batch
    of texts that all pass validation, the stored buffer afterwards is
    exactly the last 50 of the old buffer followed by the sent messages in
    send order (for an empty buffer and 101 sends: the last 50 sends),
    membership is unchanged, each send broadcast one [newMessage] to the
    room in send order, and a later joiner whose join rate check passes
    receives exactly that buffer. *)
Theorem clustered_buffer_keeps_last_50 (s : Clustered.State) (client code : string)
    (room : Room) (ms : list Message) (batch : list (jstr * Z)) (joiner : string) (now : Z) :
  Clustered.rooms s !! code = Some room -> messages room = Some ms ->
  (length ms <= Clustered.MAX_MESSAGES_PER_ROOM)%nat ->
  includes (users room) client = true -> (2 <= length (users room))%nat ->
  forallb (fun tn => if validateAndSanitizeMessage tn.1 then true else false) batch = true ->
  fst (Clustered.checkJoinRateLimit joiner s) = true ->
  (exists room', Clustered.rooms (Clustered.send_all client code batch s) !! code = Some room' /\
     users room' = users room /\
     messages room' = Some (slice_last Clustered.MAX_MESSAGES_PER_ROOM
                              (ms ++ Clustered.sent_messages client batch))) /\
  length (slice_last Clustered.MAX_MESSAGES_PER_ROOM (ms ++ Clustered.sent_messages client batch))
    = Nat.min Clustered.MAX_MESSAGES_PER_ROOM (length ms + length batch) /\
  Clustered.outbox (Clustered.send_all client code batch s) =
    Clustered.outbox s ++ map (fun m => mkEmit code None (ENewMessage m))
                              (Clustered.sent_messages client batch) /\
  (exists n, fst (Clustered.joinRoom joiner code None now (Clustered.send_all client code batch s))
     = RJoined (slice_last Clustered.MAX_MESSAGES_PER_ROOM
                  (ms ++ Clustered.sent_messages client batch)) n (type room)).
Proof.
  intros Hr Hms Hlen Hin H2 Hv Hok.
  destruct (send_all_spec client code batch s room ms Hr Hms Hin H2 Hv)
    as ((room' & Hr' & Hu & Hty & Hm) & Ho & Ha & Hc).
  rewrite <- (slice_last_short _ ms Hlen) in Hm at 1.
  rewrite fold_store_slice in Hm.
  split; [| split; [| split]].
  - exists room'. done.
  - unfold slice_last, Clustered.sent_messages.
    rewrite length_drop, length_app, length_map. lia.
  - rewrite Ho. unfold Clustered.sent_messages. by rewrite map_map.
  - rewrite <- (check_allowed_counters joiner s (Clustered.send_all client code batch s) Ha Hc)
      in Hok.
    destruct (clustered_join_existing joiner code now _ room' Hok Hr') as [n Hj].
    exists n. rewrite Hj, Hm, Hty. reflexivity.
Qed.

Lemma clustered_buffer_keeps_last_50_witness :
  exists room',
    Clustered.rooms (Clustered.send_all "A" "550000"
                       (map (fun k => (js "hi", Z.of_nat k)) (seq 1 101)) cl_two_member_state)
      !! "550000"%string = Some room' /\
    messages room' = Some (map (fun k => mkMessage "A" (js "hi") (Z.of_nat k)) (seq 52 50)).
Proof.
  destruct (clustered_buffer_keeps_last_50 cl_two_member_state "A" "550000"
              (mkRoom "A" ["A"; "B"] Text (Some []) None) []
              (map (fun k => (js "hi", Z.of_nat k)) (seq 1 101)) "C" 200)
    as ((room' & H1 & _ & H2) & _).
  all: try (vm_compute; reflexivity).
  all: try (cbn; lia).
  exists room'. split; [exact H1 |]. rewrite H2. vm_compute. reflexivity.
Defined.




(** C6, counterexample: the hard block set by failed joins is checked
    before the kind of limit, so an IP under an active join block has its
    very first [createRoom] rejected with [RateLimited]. *)
Lemma blocked_ip_first_create_rejected :
  let t := IpLimited.mkTracker (IpLimited.mkRateLimit 0 60000) (IpLimited.mkRateLimit 3 60000)
             (Some 601000) in
  let s := IpLimited.mkState ∅ ∅ {[ "1.2.3.4"%string := t ]} [] in
  IpLimited.count (IpLimited.codeGenerations t) = 0 /\
  option_map fst (IpLimited.createRoom "A" "1.2.3.4" Text 1000 [1#2] s) = Some (RError RateLimited).
Proof. split; reflexivity. Qed.

(** C6, amended: for an IP not under a join block, room generation has a
    fixed window of 5 requests. When the IP has no tracker, or its
    generation window has run out, the first request at [t1] opens a
    window until [t1 + 60000]: the first 5 rate checks in it pass, the 6th
    fails, and the first one after the reset time passes again with the
    counter restarted. Inside a window already open with [c] requests
    counted, exactly [max 0 (5 - c)] further requests pass before its reset
    time. An IP under an active join block has every [createRoom] rejected
    with [RateLimited], with nothing changed, since the block is checked
    before either counter. Otherwise [createRoom] is decided by the rate
    check: a failed check returns [RateLimited] and adds no room; a passed
    check creates the room once a fresh code is drawn. *)
Theorem create_generation_window (s : IpLimited.State) (client ip : string) (ty : RoomType)
    (now : Z) (draws : list Q) (m : gmap string IpLimited.IPTracker) (tr : IpLimited.IPTracker)
    (ts : list Z) (t1 t2 t3 t4 t5 t6 t7 : Z) :
  ((forall tr0, m !! ip = Some tr0 ->
      IpLimited.resetTime (IpLimited.codeGenerations tr0) < t1 /\
      Forall (fun n => IpLimited.blocked tr0 n = false) [t1; t2; t3; t4; t5; t6; t7]) ->
   t2 <= t1 + 60000 -> t3 <= t1 + 60000 -> t4 <= t1 + 60000 ->
   t5 <= t1 + 60000 -> t6 <= t1 + 60000 -> t1 + 60000 < t7 ->
   fst (IpLimited.check_all ip IpLimited.Generation [t1; t2; t3; t4; t5; t6; t7] m)
     = [true; true; true; true; true; false; true]) /\
  (m !! ip = Some tr ->
   Forall (fun n => IpLimited.blocked tr n = false /\
                    n <= IpLimited.resetTime (IpLimited.codeGenerations tr)) ts ->
   fst (IpLimited.check_all ip IpLimited.Generation ts m) =
     repeat true (Nat.min (length ts)
                    (Z.to_nat (5 - IpLimited.count (IpLimited.codeGenerations tr)))) ++
     repeat false (length ts - Z.to_nat (5 - IpLimited.count (IpLimited.codeGenerations tr)))) /\
  (IpLimited.ipTracking s !! ip = Some tr -> IpLimited.blocked tr now = true ->
   IpLimited.createRoom client ip ty now draws s = Some (RError RateLimited, s)) /\
  (fst (IpLimited.checkRateLimit ip IpLimited.Generation now (IpLimited.ipTracking s)) = false ->
   IpLimited.createRoom client ip ty now draws s =
     Some (RError RateLimited, IpLimited.set_tracking s
             (snd (IpLimited.checkRateLimit ip IpLimited.Generation now (IpLimited.ipTracking s))))) /\
  (fst (IpLimited.checkRateLimit ip IpLimited.Generation now (IpLimited.ipTracking s)) = true ->
   IpLimited.createRoom client ip ty now draws s =
     option_map (fun code => (RCode code, IpLimited.join_channel
        (IpLimited.set_rooms (IpLimited.set_tracking s
           (snd (IpLimited.checkRateLimit ip IpLimited.Generation now (IpLimited.ipTracking s))))
           (<[code:=Unified.newRoom client ty]> (IpLimited.rooms s))) client code))
       (generateCode (IpLimited.rooms s) draws)).
Proof.
  split; [| split; [| split; [| split]]].
  - intros Htr H2 H3 H4 H5 H6 H7.
    rewrite check_all_cons.
    destruct (m !! ip) as [tr0 |] eqn:Hm.
    + destruct (Htr tr0 eq_refl) as [Hrs Hb].
      apply Forall_cons in Hb as [Hb1 Hbt].
      rewrite (check_gen_reset ip t1 m tr0 Hm Hb1 Hrs). cbn [fst snd].
      rewrite (gen_after_first ip _ (IpLimited.set_limit IpLimited.Generation tr0
                 (IpLimited.mkRateLimit 1 (t1 + 60000))) t1 t2 t3 t4 t5 t6 t7
                 (lookup_insert_eq _ _ _) eq_refl); try done.
    + rewrite (check_fresh ip IpLimited.Generation t1 m Hm). cbn [fst snd].
      rewrite (gen_after_first ip _ (IpLimited.set_limit IpLimited.Generation (fresh_tracker t1)
                 (IpLimited.mkRateLimit 1 (t1 + 60000))) t1 t2 t3 t4 t5 t6 t7
                 (lookup_insert_eq _ _ _) eq_refl); try done.
      repeat constructor.
  - intros Hm Hall. exact (proj1 (gen_window ip ts m tr Hm Hall)).
  - intros Hm Hb. unfold IpLimited.createRoom.
    rewrite (check_blocked ip IpLimited.Generation now _ tr Hm Hb). cbn.
    by destruct s.
  - intros Hc. unfold IpLimited.createRoom.
    destruct (IpLimited.checkRateLimit ip IpLimited.Generation now (IpLimited.ipTracking s))
      as [ok m1]. cbn in Hc. subst ok. reflexivity.
  - intros Hc. unfold IpLimited.createRoom.
    destruct (IpLimited.checkRateLimit ip IpLimited.Generation now (IpLimited.ipTracking s))
      as [ok m1]. cbn in Hc. subst ok. cbn [negb snd].
    destruct (generateCode _ draws); reflexivity.
Qed.

Lemma create_generation_window_witness :
  let ta := IpLimited.mkTracker (IpLimited.mkRateLimit 5 60000) (IpLimited.mkRateLimit 3 60000)
              (Some 600500) in
  let tb := IpLimited.mkTracker (IpLimited.mkRateLimit 3 60000) (IpLimited.mkRateLimit 0 60000)
              None in
  let tc := IpLimited.mkTracker (IpLimited.mkRateLimit 0 60000) (IpLimited.mkRateLimit 3 60000)
              (Some 601000) in
  let sc := IpLimited.mkState ∅ ∅ {[ "1.2.3.4"%string := tc ]} [] in
  fst (IpLimited.check_all "1.2.3.4" IpLimited.Generation [0; 10; 20; 30; 40; 50; 60001] ∅)
    = [true; true; true; true; true; false; true] /\
  fst (IpLimited.check_all "1.2.3.4" IpLimited.Generation
         [700000; 700010; 700020; 700030; 700040; 700050; 760001] {[ "1.2.3.4"%string := ta ]})
    = [true; true; true; true; true; false; true] /\
  fst (IpLimited.check_all "1.2.3.4" IpLimited.Generation [10; 20; 30; 40]
         {[ "1.2.3.4"%string := tb ]}) = [true; true; false; false] /\
  IpLimited.createRoom "A" "1.2.3.4" Text 1000 [1#2] sc = Some (RError RateLimited, sc).
Proof.
  intros ta tb tc sc. split; [| split; [| split]].
  - refine (proj1 (create_generation_window sc "A" "1.2.3.4" Text 1000 [1#2] ∅ tc []
              0 10 20 30 40 50 60001) _ _ _ _ _ _ _); try lia.
    intros tr0 H. vm_compute in H. discriminate.
  - refine (proj1 (create_generation_window sc "A" "1.2.3.4" Text 1000 [1#2]
              {[ "1.2.3.4"%string := ta ]} tc []
              700000 700010 700020 700030 700040 700050 760001) _ _ _ _ _ _ _); try lia.
    intros tr0 H. vm_compute in H. injection H as <-.
    split; [vm_compute; reflexivity |].
    repeat constructor.
  - refine (proj1 (proj2 (create_generation_window sc "A" "1.2.3.4" Text 1000 [1#2]
              {[ "1.2.3.4"%string := tb ]} tb [10; 20; 30; 40] 0 0 0 0 0 0 0)) _ _).
    + vm_compute. reflexivity.
    + repeat (apply List.Forall_cons; [split; [reflexivity | cbn; lia] |]).
      apply List.Forall_nil.
  - refine (proj1 (proj2 (proj2 (create_generation_window sc "A" "1.2.3.4" Text 1000 [1#2]
              ∅ tc [] 0 0 0 0 0 0 0))) _ _); vm_compute; reflexivity.
Defined.

(* ================================================================== *)
(** * Further properties of the gateways *)

(** ** Message validation *)

Lemma gsub_length (fuel : nat) (m : jstr -> option nat) (s : jstr) :
  (length (gsub fuel m s) <= length s)%nat.
Proof.
  revert s. induction fuel as [|f IH]; intros s; simpl; [lia |].
  destruct s as [|c t]; simpl; [lia |].
  destruct (m (c :: t)) as [k|].
  - etransitivity; [apply IH |]. rewrite length_drop. simpl. lia.
  - simpl. specialize (IH t). lia.
Qed.

Lemma sanitize_length (t : jstr) : (length (sanitize t) <= length t)%nat.
Proof.
  unfold sanitize, replace_all.
  repeat (etransitivity; [apply gsub_length |]). reflexivity.
Qed.

(** X1: a message text accepted by [validateAndSanitizeMessage] comes back
    with at most [MAX_MESSAGE_LENGTH] code units: the length check is
    made on the trimmed text and sanitization never lengthens it. *)
Theorem validate_length_bound (t san : jstr) :
  validateAndSanitizeMessage t = Some san -> Z.of_nat (length san) <= MAX_MESSAGE_LENGTH.
Proof.
  unfold validateAndSanitizeMessage. destruct t as [|c t]; [discriminate |].
  cbv zeta.
  destruct (length (trim (c :: t)) =? 0)%nat; [discriminate |].
  destruct (MAX_MESSAGE_LENGTH <? Z.of_nat (length (trim (c :: t)))) eqn:E; [discriminate |].
  destruct (dangerous (sanitize (trim (c :: t)))); [discriminate |].
  intros H. injection H as <-. apply Z.ltb_ge in E.
  pose proof (sanitize_length (trim (c :: t))). lia.
Qed.

Lemma validate_length_bound_witness :
  validateAndSanitizeMessage (js "hi") = Some (js "hi") /\
  Z.of_nat (length (js "hi")) <= MAX_MESSAGE_LENGTH.
Proof.
  assert (H : validateAndSanitizeMessage (js "hi") = Some (js "hi")) by (vm_compute; reflexivity).
  split; [exact H | exact (validate_length_bound _ _ H)].
Defined.

(** ** Transfer cancellation, completion timers and disconnection *)

Lemma first_room_of_spec (client : string) (rs : gmap string Room) :
  (forall code, Unified.first_room_of client rs = Some code ->
     exists r, rs !! code = Some r /\ client ∈ users r) /\
  (Unified.first_room_of client rs = None ->
     forall code r, rs !! code = Some r -> client ∉ users r).
Proof.
  unfold Unified.first_room_of. split.
  - intros code H.
    destruct (List.filter _ (map_to_list rs)) as [|[k r] l] eqn:E; simpl in H; [discriminate |].
    injection H as <-. exists r.
    assert (Hin : In (k, r) (List.filter (fun kr : string * Room => includes (users kr.2) client)
                              (map_to_list rs))) by (rewrite E; left; reflexivity).
    apply filter_In in Hin as [Hin Hinc]. simpl in Hinc.
    split; [apply elem_of_map_to_list, list_elem_of_In, Hin | by apply includes_spec].
  - intros H code r Hr Hc.
    assert (Hin : In (code, r) (List.filter (fun kr : string * Room => includes (users kr.2) client)
                                 (map_to_list rs))).
    { apply filter_In. split; [apply list_elem_of_In, elem_of_map_to_list, Hr |].
      simpl. by apply includes_spec. }
    destruct (List.filter _ (map_to_list rs)); [destruct Hin | discriminate].
Qed.

(** X4: after a successful cancel the rooms are unchanged, every other
    transfer is unchanged, and every later [fileChunk] for the
    cancelled id, from anyone, is rejected with [InvalidTransfer]. *)
Theorem cancel_then_chunk_rejected (s s1 : Unified.State) (client tid : string) (sigs : list SigEmit) :
  Unified.handleCancelFileTransfer client tid s = (AckSuccess, s1, sigs) ->
  Unified.rooms s1 = Unified.rooms s /\
  (forall tid', tid' <> tid -> Unified.fileTransfers s1 !! tid' = Unified.fileTransfers s !! tid') /\
  (forall c i, Unified.handleFileChunk c tid i s1 = (RError InvalidTransfer, s1)).
Proof.
  unfold Unified.handleCancelFileTransfer.
  destruct (Unified.fileTransfers s !! tid) as [tr|] eqn:Ht; [| discriminate].
  destruct (String.eqb (Unified.ft_sender tr) client); [| discriminate].
  intros H. injection H as <- _. simpl. split; [done |]. split.
  - intros tid' Hne. by rewrite lookup_delete_ne by congruence.
  - intros c i. unfold Unified.handleFileChunk. simpl. by rewrite lookup_delete_eq.
Qed.

Lemma cancel_then_chunk_rejected_witness :
  exists s1 sigs,
    Unified.handleCancelFileTransfer "A" "t" one_transfer_state = (AckSuccess, s1, sigs) /\
    (Unified.rooms s1 = Unified.rooms one_transfer_state /\
     (forall tid', tid' <> "t"%string ->
        Unified.fileTransfers s1 !! tid' = Unified.fileTransfers one_transfer_state !! tid') /\
     (forall c i, Unified.handleFileChunk c "t" i s1 = (RError InvalidTransfer, s1))).
Proof.
  destruct (Unified.handleCancelFileTransfer "A" "t" one_transfer_state) as [[a s1] sigs] eqn:H.
  destruct a as [|e]; [| vm_compute in H; discriminate].
  exists s1, sigs. split; [reflexivity |].
  exact (cancel_then_chunk_rejected _ _ _ _ _ H).
Defined.

(** X5: a cancel emits at most one [fileTransferCancelled] notice, to the
    whole channel of a room the caller belongs to (nobody excluded);
    a notice is emitted exactly when the cancel succeeds and the caller
    is in some room. *)
Theorem cancel_notice_single_room (s : Unified.State) (client tid : string) :
  (length (snd (Unified.handleCancelFileTransfer client tid s)) <= 1)%nat /\
  (forall e, e ∈ snd (Unified.handleCancelFileTransfer client tid s) ->
     sig_except e = None /\ signal e = SFileTransferCancelled tid /\
     exists r, Unified.rooms s !! sig_target e = Some r /\ client ∈ users r) /\
  (snd (Unified.handleCancelFileTransfer client tid s) <> [] <->
   fst (fst (Unified.handleCancelFileTransfer client tid s)) = AckSuccess /\
   exists code r, Unified.rooms s !! code = Some r /\ client ∈ users r).
Proof.
  destruct (first_room_of_spec client (Unified.rooms s)) as [Hs Hn].
  unfold Unified.handleCancelFileTransfer.
  destruct (Unified.fileTransfers s !! tid) as [tr|]; simpl;
    [| split; [lia | split; [intros e He; by apply elem_of_nil in He | split; [done | intros [H _]; discriminate]]]].
  destruct (String.eqb (Unified.ft_sender tr) client); simpl;
    [| split; [lia | split; [intros e He; by apply elem_of_nil in He | split; [done | intros [H _]; discriminate]]]].
  destruct (Unified.first_room_of client (Unified.rooms s)) as [code|] eqn:Hf; simpl.
  - destruct (Hs code eq_refl) as (r & Hr & Hc). split; [lia |]. split.
    + intros e He. apply list_elem_of_singleton in He as ->. simpl. eauto.
    + split; [eauto | done].
  - split; [lia |]. split; [intros e He; by apply elem_of_nil in He |].
    split; [done |]. intros [_ (code & r & Hr & Hc)]. exfalso. exact (Hn eq_refl code r Hr Hc).
Qed.

(** X7: when the completion timer of a transfer fires, the transfer is
    deleted, and every later [fileChunk] for its id is rejected with
    [InvalidTransfer]. *)
Theorem fired_transfer_rejects_chunks (s s' : Unified.State) (receiver tid : string)
    (ts : list Unified.Timer) :
  Unified.timers s = Unified.CompleteTimer receiver tid :: ts ->
  Unified.fireTimer s = Some s' ->
  Unified.timers s' = ts /\ Unified.fileTransfers s' !! tid = None /\
  (forall c i, Unified.handleFileChunk c tid i s' = (RError InvalidTransfer, s')).
Proof.
  intros Ht H. unfold Unified.fireTimer in H. rewrite Ht in H. injection H as <-.
  simpl. rewrite lookup_delete_eq. split; [done | split; [done |]].
  intros c i. unfold Unified.handleFileChunk. simpl. by rewrite lookup_delete_eq.
Qed.

Lemma fired_transfer_rejects_chunks_witness :
  exists s', Unified.fireTimer one_transfer_state = Some s' /\
    (Unified.timers s' = [] /\ Unified.fileTransfers s' !! "t"%string = None /\
     (forall c i, Unified.handleFileChunk c "t" i s' = (RError InvalidTransfer, s'))).
Proof.
  assert (H1 : Unified.timers one_transfer_state = [Unified.CompleteTimer "B" "t"]) by reflexivity.
  destruct (Unified.fireTimer one_transfer_state) as [s'|] eqn:H2; [| vm_compute in H2; discriminate].
  exists s'. split; [reflexivity |].
  exact (fired_transfer_rejects_chunks _ _ _ _ _ H1 H2).
Defined.

(** X8: after [handleDisconnect] the client is in no room's member list,
    is sender or receiver of no remaining transfer and has left every
    socket.io channel. *)
Theorem disconnect_forgets_client (s : Unified.State) (client : string) :
  (forall code r, Unified.rooms (Unified.handleDisconnect client s) !! code = Some r ->
     client ∉ users r) /\
  (forall tid tr, Unified.fileTransfers (Unified.handleDisconnect client s) !! tid = Some tr ->
     Unified.ft_sender tr <> client /\ Unified.ft_receiver tr <> client) /\
  (forall code, (client, code) ∉ Unified.joined (Unified.handleDisconnect client s)).
Proof.
  split; [| split].
  - intros code r H. simpl in H. rewrite lookup_omap in H.
    destruct (Unified.rooms s !! code) as [room|]; simpl in H; [| discriminate].
    unfold Unified.disconnect_room in H.
    destruct (includes (users room) client) eqn:Hinc.
    + destruct (length (remove_user (users room) client) =? 0)%nat; [discriminate |].
      injection H as <-. simpl. rewrite remove_user_elem. tauto.
    + injection H as <-. intros Hc. apply includes_spec in Hc. congruence.
  - intros tid tr H. simpl in H. apply map_lookup_filter_Some in H as [_ H]. exact H.
  - intros code H. simpl in H. apply elem_of_filter in H as [H _]. simpl in H. done.
Qed.

(** ** Peer-to-peer offers and the join rate limit of the in-memory gateway *)

Lemma remove_user_length (l : list string) (x : string) :
  NoDup l ->
  length l = (length (remove_user l x) + if bool_decide (x ∈ l) then 1 else 0)%nat.
Proof.
  induction l as [|y l IH]; intros Hnd; [reflexivity |].
  apply NoDup_cons in Hnd as [Hy Hnd].
  unfold remove_user in *. rewrite filter_cons.
  destruct (decide (Is_true (negb (String.eqb y x)))) as [Hd|Hd].
  - assert (Hne : y <> x).
    { intros ->. destruct (String.eqb_spec x x) as [_|n]; [exact Hd | by apply n]. }
    simpl. rewrite (IH Hnd). f_equal.
    destruct (bool_decide_reflect (x ∈ l)) as [Hx|Hx];
      [rewrite bool_decide_true by set_solver | rewrite bool_decide_false by set_solver]; lia.
  - assert (y = x) as ->.
    { destruct (String.eqb_spec y x) as [|Hn]; [done |]. exfalso. apply Hd.
      destruct (String.eqb_spec y x); [done | exact I]. }
    rewrite bool_decide_true by set_solver.
    cbn [length]. rewrite (IH Hnd), bool_decide_false by done. lia.
Qed.

(** X10: for a room with distinct members, [handleP2POffer] relays the offer
    to [u] exactly when [u] is a member other than the caller and the
    room has one member besides the caller; the caller's own membership
    is not required. *)
Theorem p2p_offer_recipient (s : Unified.State) (client code tid u : string) (room : Room) :
  Unified.rooms s !! code = Some room -> NoDup (users room) ->
  Unified.handleP2POffer client code tid s = [mkSigEmit u None (SP2POffer tid code)] <->
  u ∈ users room /\ u <> client /\
  length (users room) = (if bool_decide (client ∈ users room) then 2 else 1)%nat.
Proof.
  intros Hr Hnd. unfold Unified.handleP2POffer. rewrite Hr.
  pose proof (remove_user_length (users room) client Hnd) as Hlen.
  pose proof (fun v => remove_user_elem (users room) client v) as Hel.
  destruct (remove_user (users room) client) as [|a [|b l]] eqn:E.
  - split; [discriminate |]. intros (Hu & Hne & Hl).
    assert (u ∈ @nil string) by (apply Hel; done). by apply elem_of_nil in H.
  - split.
    + intros H. injection H as ->. assert (u ∈ [u]) as Hu by set_solver.
      apply Hel in Hu as [Hu Hne]. split; [done | split; [done |]]. simpl in Hlen.
      destruct (bool_decide (client ∈ users room)); lia.
    + intros (Hu & Hne & _). assert (u ∈ [a]) as Ha by (apply Hel; done).
      apply list_elem_of_singleton in Ha as ->. reflexivity.
  - split; [discriminate |]. intros (Hu & Hne & Hl). simpl in Hlen.
    destruct (bool_decide (client ∈ users room)); lia.
Qed.

Lemma p2p_offer_recipient_witness :
  (Unified.rooms (Unified.mkState {["100000" := mkRoom "A" ["A"] Text (Some []) None]} ∅ ∅ ∅ [] [])
     !! "100000" = Some (mkRoom "A" ["A"] Text (Some []) None) /\
   NoDup ["A"]) /\
  Unified.handleP2POffer "X" "100000" "t1"
    (Unified.mkState {["100000" := mkRoom "A" ["A"] Text (Some []) None]} ∅ ∅ ∅ [] []) =
    [mkSigEmit "A" None (SP2POffer "t1" "100000")].
Proof.
  assert (H1 : Unified.rooms (Unified.mkState {["100000" := mkRoom "A" ["A"] Text (Some []) None]} ∅ ∅ ∅ [] [])
     !! "100000" = Some (mkRoom "A" ["A"] Text (Some []) None)) by (vm_compute; reflexivity).
  assert (H2 : NoDup ["A"]) by apply NoDup_singleton.
  split; [split; assumption |].
  apply (p2p_offer_recipient _ "X" "100000" "t1" "A" _ H1 H2).
  split; [set_solver | split; [discriminate |]]. reflexivity.
Defined.

Lemma join_checks_window (c : string) (t0 : Z) (times : list Z)
    (m : gmap string Unified.JoinAttempts) (k : nat) (last : Z) :
  m !! c = Some (Unified.mkAttempts (Z.of_nat k) last) -> (1 <= k <= 5)%nat -> t0 <= last ->
  Forall (fun t => t0 <= t <= t0 + Unified.JOIN_COOLDOWN) times ->
  fst (Unified.join_checks c times m) =
    repeat true (Nat.min (length times) (5 - k)) ++ repeat false (length times - (5 - k)).
Proof.
  revert m k last. induction times as [|t rest IH]; intros m k last Hm Hk Hl Hall;
    [reflexivity |].
  apply Forall_cons in Hall as [[Ht1 Ht2] Hall].
  cbn [Unified.join_checks]. unfold Unified.checkJoinRateLimit at 1. rewrite Hm. cbn [Unified.lastAttempt Unified.attempt_count].
  assert (E1 : (Unified.JOIN_COOLDOWN <? t - last) = false)
    by (apply Z.ltb_ge; unfold Unified.JOIN_COOLDOWN in *; lia).
  rewrite E1.
  destruct (Unified.MAX_JOIN_ATTEMPTS <=? Z.of_nat k) eqn:E2.
  - apply Z.leb_le in E2. unfold Unified.MAX_JOIN_ATTEMPTS in E2.
    assert (k = 5%nat) as -> by lia.
    pose proof (IH m 5%nat last Hm Hk Hl Hall) as IH'.
    destruct (Unified.join_checks c rest m) as [oks m2]. simpl in *. rewrite IH'.
    rewrite !Nat.min_0_r, !Nat.sub_0_r. reflexivity.
  - apply Z.leb_gt in E2. unfold Unified.MAX_JOIN_ATTEMPTS in E2.
    pose proof (IH (<[c:=Unified.mkAttempts (Z.of_nat k + 1) t]> m) (S k) t) as IH'.
    rewrite Nat2Z.inj_succ, <- Z.add_1_r, lookup_insert_eq in IH'.
    specialize (IH' eq_refl ltac:(lia) Ht1 Hall).
    destruct (Unified.join_checks c rest _) as [oks m2]. simpl in *. rewrite IH'.
    replace (5 - k)%nat with (S (5 - S k)) by lia. reflexivity.
Qed.

(** X11: for a client with no join record, a burst of join attempts within
    one minute of the first is answered with five acceptances followed
    by rejections. *)
Theorem join_rate_window (c : string) (t0 : Z) (rest : list Z)
    (m : gmap string Unified.JoinAttempts) :
  m !! c = None ->
  Forall (fun t => t0 <= t <= t0 + Unified.JOIN_COOLDOWN) rest ->
  fst (Unified.join_checks c (t0 :: rest) m) =
    repeat true (Nat.min (S (length rest)) 5) ++ repeat false (S (length rest) - 5).
Proof.
  intros Hm Hall. cbn [Unified.join_checks]. unfold Unified.checkJoinRateLimit at 1. rewrite Hm.
  pose proof (join_checks_window c t0 rest (<[c:=Unified.mkAttempts 1 t0]> m) 1 t0) as W.
  rewrite lookup_insert_eq in W. specialize (W eq_refl ltac:(lia) ltac:(lia) Hall).
  destruct (Unified.join_checks c rest _) as [oks m2]. simpl in *. rewrite W. reflexivity.
Qed.

Lemma join_rate_window_witness :
  (∅ : gmap string Unified.JoinAttempts) !! "A" = None /\
  Forall (fun t => 0 <= t <= 0 + Unified.JOIN_COOLDOWN) [1; 2; 3; 4; 5; 6] /\
  fst (Unified.join_checks "A" [0; 1; 2; 3; 4; 5; 6] ∅) =
    repeat true (Nat.min 7 5) ++ repeat false (7 - 5).
Proof.
  assert (H1 : (∅ : gmap string Unified.JoinAttempts) !! "A" = None) by apply lookup_empty.
  assert (H2 : Forall (fun t => 0 <= t <= 0 + Unified.JOIN_COOLDOWN) [1; 2; 3; 4; 5; 6])
    by (repeat constructor; unfold Unified.JOIN_COOLDOWN; lia).
  split; [exact H1 | split; [exact H2 |]].
  exact (join_rate_window "A" 0 [1; 2; 3; 4; 5; 6] ∅ H1 H2).
Defined.

(** X12: the periodic [cleanupRateLimitData] sweep never changes the
    verdict of a later [checkJoinRateLimit], nor the record it leaves
    for the client. *)
Theorem rate_sweep_unobservable (c : string) (now now' : Z)
    (m : gmap string Unified.JoinAttempts) :
  now <= now' ->
  fst (Unified.checkJoinRateLimit c now' (Unified.cleanupRateLimitData now m)) =
    fst (Unified.checkJoinRateLimit c now' m) /\
  snd (Unified.checkJoinRateLimit c now' (Unified.cleanupRateLimitData now m)) !! c =
    snd (Unified.checkJoinRateLimit c now' m) !! c.
Proof.
  intros Hle. unfold Unified.checkJoinRateLimit, Unified.cleanupRateLimitData.
  destruct (m !! c) as [a|] eqn:Hm.
  - destruct (decide ((Unified.JOIN_COOLDOWN * 2 <? now - Unified.lastAttempt a) = false)) as [Hk|Hk].
    + assert (Hf : filter (fun kv : string * Unified.JoinAttempts =>
                     (Unified.JOIN_COOLDOWN * 2 <? now - Unified.lastAttempt kv.2) = false) m !! c = Some a)
        by (apply map_lookup_filter_Some; split; done).
      rewrite Hf.
      destruct (Unified.JOIN_COOLDOWN <? now' - Unified.lastAttempt a);
        [simpl; rewrite !lookup_insert_eq; done |].
      destruct (Unified.MAX_JOIN_ATTEMPTS <=? Unified.attempt_count a);
        simpl; [rewrite Hf, Hm; done | rewrite !lookup_insert_eq; done].
    + assert (Hf : filter (fun kv : string * Unified.JoinAttempts =>
                     (Unified.JOIN_COOLDOWN * 2 <? now - Unified.lastAttempt kv.2) = false) m !! c = None).
      { apply map_lookup_filter_None. right. intros x Hx. rewrite Hm in Hx. by injection Hx as <-. }
      rewrite Hf. apply not_false_is_true, Z.ltb_lt in Hk.
      assert (E : (Unified.JOIN_COOLDOWN <? now' - Unified.lastAttempt a) = true)
        by (apply Z.ltb_lt; unfold Unified.JOIN_COOLDOWN in *; lia).
      rewrite E. simpl. rewrite !lookup_insert_eq. done.
  - assert (Hf : filter (fun kv : string * Unified.JoinAttempts =>
                   (Unified.JOIN_COOLDOWN * 2 <? now - Unified.lastAttempt kv.2) = false) m !! c = None)
      by (apply map_lookup_filter_None; left; done).
    rewrite Hf. simpl. rewrite !lookup_insert_eq. done.
Qed.

Lemma rate_sweep_unobservable_witness :
  0 <= 200000 /\
  fst (Unified.checkJoinRateLimit "A" 200000
         (Unified.cleanupRateLimitData 0 {["A" := Unified.mkAttempts 5 (-200000)]})) =
    fst (Unified.checkJoinRateLimit "A" 200000 {["A" := Unified.mkAttempts 5 (-200000)]}).
Proof.
  assert (H : 0 <= 200000) by lia. split; [exact H |].
  exact (proj1 (rate_sweep_unobservable "A" 0 200000 _ H)).
Defined.

(** ** Redis in the clustered gateway *)

Lemma remove_user_self (c : string) : remove_user [c] c = [].
Proof.
  unfold remove_user. rewrite filter_cons, decide_False; [reflexivity |].
  destruct (String.eqb_spec c c) as [_|n]; [exact id | by destruct n].
Qed.

Lemma clustered_check_unavailable (c : string) (s : Clustered.State) :
  Clustered.available (Clustered.redis s) = false -> Clustered.checkJoinRateLimit c s = (true, s).
Proof.
  destruct s as [rs jn la [av cn tt sn] ob]. simpl. intros ->. reflexivity.
Qed.

(** X13: in the clustered gateway, while Redis is unavailable a join is
    never refused with [TooManyJoinAttempts], and Redis stays
    unavailable. *)
Theorem clustered_rate_fail_open (s : Clustered.State) (c code : string)
    (ek : option RoomType) (now : Z) :
  Clustered.available (Clustered.redis s) = false ->
  fst (Clustered.joinRoom c code ek now s) <> RError TooManyJoinAttempts /\
  Clustered.available (Clustered.redis (snd (Clustered.joinRoom c code ek now s))) = false.
Proof.
  intros Ha. unfold Clustered.joinRoom. rewrite (clustered_check_unavailable c s Ha). simpl.
  assert (Hl : Clustered.loadRoomFromRedis code s = (None, s))
    by (unfold Clustered.loadRoomFromRedis; rewrite Ha; reflexivity).
  unfold js_get. destruct (Clustered.rooms s !! code) as [room|] eqn:Hr;
    [| destruct (includes object_prototype_keys code);
       [destruct ek; simpl; split; [discriminate | exact Ha | discriminate | exact Ha] |
        rewrite Hl; simpl; split; [discriminate | exact Ha]]].
  simpl. destruct (Unified.mismatch ek room); simpl; [split; [discriminate | exact Ha] |].
  split; [destruct (type _); discriminate |].
  unfold Clustered.syncRoomToRedis. simpl. rewrite Ha.
  repeat case_match; simpl; exact Ha.
Qed.

Lemma clustered_rate_fail_open_witness :
  Clustered.available (Clustered.redis cl_down_state) = false /\
  fst (Clustered.joinRoom "B" "550000" None 1 cl_down_state) <> RError TooManyJoinAttempts /\
  Clustered.available (Clustered.redis (snd (Clustered.joinRoom "B" "550000" None 1 cl_down_state)))
    = false.
Proof.
  assert (H : Clustered.available (Clustered.redis cl_down_state) = false) by reflexivity.
  split; [exact H |]. exact (clustered_rate_fail_open _ _ _ _ _ H).
Defined.

(** X14: a room written by [syncRoomToRedis] while Redis is available is
    read back unchanged by [loadRoomFromRedis], which also caches it in
    the local registry. *)
Theorem clustered_sync_load_roundtrip (code : string) (s s2 : Clustered.State) (room : Room) :
  Clustered.rooms s !! code = Some room ->
  Clustered.available (Clustered.redis s) = true ->
  Clustered.redis s2 = Clustered.redis (Clustered.syncRoomToRedis code s) ->
  Clustered.loadRoomFromRedis code s2 =
    (Some room, Clustered.set_rooms s2 (<[code:=room]> (Clustered.rooms s2))).
Proof.
  intros Hr Ha H2. unfold Clustered.loadRoomFromRedis. rewrite H2.
  unfold Clustered.syncRoomToRedis. rewrite Hr, Ha. simpl. rewrite lookup_insert_eq. reflexivity.
Qed.

Lemma clustered_sync_load_roundtrip_witness :
  Clustered.rooms cl_one_member_state !! "550000"%string = Some (Unified.newRoom "A" Text) /\
  Clustered.available (Clustered.redis cl_one_member_state) = true /\
  Clustered.loadRoomFromRedis "550000" cl_reloading_state =
    (Some (Unified.newRoom "A" Text),
     Clustered.set_rooms cl_reloading_state
       (<["550000":=Unified.newRoom "A" Text]> (Clustered.rooms cl_reloading_state))).
Proof.
  assert (H1 : Clustered.rooms cl_one_member_state !! "550000"%string = Some (Unified.newRoom "A" Text))
    by (vm_compute; reflexivity).
  assert (H2 : Clustered.available (Clustered.redis cl_one_member_state) = true)
    by (vm_compute; reflexivity).
  assert (H3 : Clustered.redis cl_reloading_state =
               Clustered.redis (Clustered.syncRoomToRedis "550000" cl_one_member_state))
    by reflexivity.
  split; [exact H1 | split; [exact H2 |]].
  exact (clustered_sync_load_roundtrip _ _ _ _ H1 H2 H3).
Defined.

Lemma join_reload (j code : string) (now : Z) (s1 : Clustered.State) (room : Room) :
  Clustered.rooms s1 !! code = None -> includes object_prototype_keys code = false ->
  Clustered.available (Clustered.redis s1) = true ->
  Clustered.snapshots (Clustered.redis s1) !! ("room:" ++ code)%string = Some (Some room) ->
  default 0 (Clustered.counters (Clustered.redis s1) !! ("rate_limit:join:" ++ j)%string)
    < Clustered.MAX_JOIN_ATTEMPTS ->
  includes (users room) j = false ->
  exists s2, Clustered.joinRoom j code None now s1 =
      (RJoined (default [] (messages room)) (Z.of_nat (length (users room) + 1)) (type room), s2) /\
    Clustered.rooms s2 !! code = Some (set_users room (users room ++ [j])).
Proof.
  destruct s1 as [rs jn la [av cn tt sn] ob]. intros Hr Hp Ha Hs Hc Hj.
  cbn [Clustered.rooms Clustered.redis Clustered.available Clustered.snapshots
       Clustered.counters] in Hr, Ha, Hs, Hc. subst av.
  unfold Clustered.joinRoom, js_get. rewrite Hp.
  unfold Clustered.checkJoinRateLimit, Clustered.redis_incr. simpl.
  assert (E : (Clustered.MAX_JOIN_ATTEMPTS <? default 0 (cn !! ("rate_limit:join:" ++ j)%string) + 1) = false)
    by (apply Z.ltb_ge; unfold Clustered.MAX_JOIN_ATTEMPTS in *; lia).
  destruct (default 0 (cn !! ("rate_limit:join:" ++ j)%string) + 1 =? 1); simpl; rewrite E; simpl;
    rewrite Hr; unfold Clustered.loadRoomFromRedis; simpl; rewrite Hs; simpl; rewrite Hj; simpl;
    rewrite length_app; simpl;
    (eexists; split; [f_equal |]).
  all: try (unfold Clustered.syncRoomToRedis; simpl; rewrite !lookup_insert_eq; simpl;
            destruct (type room); simpl; rewrite !lookup_insert_eq; reflexivity).
  all: destruct room; reflexivity.
Qed.

(** X15: in the clustered gateway, when the last member leaves a room whose
    Redis snapshot is still stored (under a code that is not a name
    inherited from [Object.prototype]), the room is removed locally, but a
    later join by another client reloads it from the snapshot: the join
    succeeds with member count 2 and the leaver is back in the member
    list. *)
Theorem clustered_last_leave_resurrects (s : Clustered.State) (c j code : string) (room : Room)
    (now : Z) :
  Clustered.rooms s !! code = Some room -> includes object_prototype_keys code = false ->
  users room = [c] -> j <> c ->
  Clustered.available (Clustered.redis s) = true ->
  Clustered.snapshots (Clustered.redis s) !! ("room:" ++ code)%string = Some (Some room) ->
  default 0 (Clustered.counters (Clustered.redis s) !! ("rate_limit:join:" ++ j)%string)
    < Clustered.MAX_JOIN_ATTEMPTS ->
  Clustered.rooms (snd (Clustered.leaveRoom c code s)) !! code = None /\
  exists s2, Clustered.joinRoom j code None now (snd (Clustered.leaveRoom c code s)) =
      (RJoined (default [] (messages room)) 2 (type room), s2) /\
    Clustered.rooms s2 !! code = Some (set_users room [c; j]).
Proof.
  intros Hr Hp Hu Hne Ha Hs Hc.
  assert (Hin : includes (users room) c = true) by (apply includes_spec; rewrite Hu; set_solver).
  assert (Hjn : includes (users room) j = false).
  { destruct (includes (users room) j) eqn:E; [| done].
    apply includes_spec in E. rewrite Hu in E. set_solver. }
  assert (Hl : Clustered.rooms (snd (Clustered.leaveRoom c code s)) !! code = None /\
               Clustered.redis (snd (Clustered.leaveRoom c code s)) = Clustered.redis s).
  { unfold Clustered.leaveRoom. rewrite Hr, Hin, Hu, remove_user_self. simpl.
    rewrite lookup_delete_eq. done. }
  destruct Hl as [Hl1 Hl2]. split; [exact Hl1 |].
  rewrite <- Hl2 in Ha, Hs, Hc.
  destruct (join_reload j code now _ room Hl1 Hp Ha Hs Hc Hjn) as (s2 & Hj & Hr2).
  exists s2. rewrite Hj, Hr2, Hu. split; reflexivity.
Qed.

Lemma clustered_last_leave_resurrects_witness :
  Clustered.rooms cl_one_member_state !! "550000"%string = Some (Unified.newRoom "A" Text) /\
  Clustered.rooms (snd (Clustered.leaveRoom "A" "550000" cl_one_member_state)) !! "550000"%string
    = None /\
  exists s2, Clustered.joinRoom "B" "550000" None 1
               (snd (Clustered.leaveRoom "A" "550000" cl_one_member_state)) =
      (RJoined [] 2 Text, s2) /\
    Clustered.rooms s2 !! "550000"%string = Some (set_users (Unified.newRoom "A" Text) ["A"; "B"]).
Proof.
  assert (H1 : Clustered.rooms cl_one_member_state !! "550000"%string = Some (Unified.newRoom "A" Text))
    by (vm_compute; reflexivity).
  assert (Hp : includes object_prototype_keys "550000" = false) by reflexivity.
  assert (H2 : users (Unified.newRoom "A" Text) = ["A"%string]) by reflexivity.
  assert (H3 : "B"%string <> "A"%string) by discriminate.
  assert (H4 : Clustered.available (Clustered.redis cl_one_member_state) = true)
    by (vm_compute; reflexivity).
  assert (H5 : Clustered.snapshots (Clustered.redis cl_one_member_state) !! ("room:" ++ "550000")%string
               = Some (Some (Unified.newRoom "A" Text))) by (vm_compute; reflexivity).
  assert (H6 : default 0 (Clustered.counters (Clustered.redis cl_one_member_state)
                 !! ("rate_limit:join:" ++ "B")%string) < Clustered.MAX_JOIN_ATTEMPTS)
    by (vm_compute; reflexivity).
  split; [exact H1 |].
  exact (clustered_last_leave_resurrects _ _ _ _ _ 1 H1 Hp H2 H3 H4 H5 H6).
Defined.

Lemma fold_delete_snapshot (l : list string) (r0 : Clustered.Redis) (key : string) :
  Clustered.available r0 = true ->
  Clustered.snapshots r0 !! ("room:" ++ key)%string = None \/ key ∈ l ->
  Clustered.available (fold_left (fun r code => Clustered.redis_delete ("room:" ++ code)%string r) l r0) = true /\
  Clustered.snapshots (fold_left (fun r code => Clustered.redis_delete ("room:" ++ code)%string r) l r0)
    !! ("room:" ++ key)%string = None.
Proof.
  revert r0. induction l as [|c l IH]; intros r0 Ha H; simpl.
  - split; [done |]. destruct H as [H|H]; [done | by apply elem_of_nil in H].
  - apply IH.
    + unfold Clustered.redis_delete. rewrite Ha. done.
    + unfold Clustered.redis_delete. rewrite Ha. simpl.
      destruct (decide (key = c)) as [->|Hne].
      * left. apply lookup_delete_eq.
      * rewrite lookup_delete_ne by (intros E; apply Hne; by apply (inj (String.append "room:")) in E).
        destruct H as [H|H]; [by left | right]. apply elem_of_cons in H as [H|H]; [done | exact H].
Qed.

(** X16: the clustered [cleanupInactiveRooms] removes a stale room both from
    the local registry and from Redis, so it can no longer be reloaded. *)
Theorem clustered_cleanup_drops_snapshot (now : Z) (s : Clustered.State) (code : string) (r : Room) :
  Clustered.rooms s !! code = Some r ->
  Unified.stale now (Clustered.roomLastActivity s) code r = true ->
  Clustered.available (Clustered.redis s) = true ->
  Clustered.rooms (Clustered.cleanupInactiveRooms now s) !! code = None /\
  Clustered.loadRoomFromRedis code (Clustered.cleanupInactiveRooms now s) =
    (None, Clustered.cleanupInactiveRooms now s).
Proof.
  intros Hr Hst Ha. split.
  - simpl. apply map_lookup_filter_None. right. intros x Hx. rewrite Hr in Hx.
    injection Hx as <-. simpl. rewrite Hst. discriminate.
  - assert (Hin : code ∈ map fst (List.filter (fun kr : string * Room =>
                     Unified.stale now (Clustered.roomLastActivity s) kr.1 kr.2)
                     (map_to_list (Clustered.rooms s)))).
    { apply list_elem_of_fmap. exists (code, r). split; [done |].
      apply list_elem_of_In, filter_In. split; [| exact Hst].
      apply list_elem_of_In, elem_of_map_to_list, Hr. }
    destruct (fold_delete_snapshot _ (Clustered.redis s) code Ha (or_intror Hin)) as [Ha' Hn].
    unfold Clustered.loadRoomFromRedis. simpl. rewrite Ha', Hn. reflexivity.
Qed.

Lemma clustered_cleanup_drops_snapshot_witness :
  Clustered.rooms cl_one_member_state !! "550000"%string = Some (Unified.newRoom "A" Text) /\
  Clustered.snapshots (Clustered.redis cl_one_member_state) !! "room:550000"%string
    = Some (Some (Unified.newRoom "A" Text)) /\
  Clustered.rooms (Clustered.cleanupInactiveRooms 2000000 cl_one_member_state) !! "550000"%string
    = None /\
  Clustered.loadRoomFromRedis "550000" (Clustered.cleanupInactiveRooms 2000000 cl_one_member_state) =
    (None, Clustered.cleanupInactiveRooms 2000000 cl_one_member_state).
Proof.
  assert (H1 : Clustered.rooms cl_one_member_state !! "550000"%string = Some (Unified.newRoom "A" Text))
    by (vm_compute; reflexivity).
  assert (H2 : Unified.stale 2000000 (Clustered.roomLastActivity cl_one_member_state) "550000"
                 (Unified.newRoom "A" Text) = true) by (vm_compute; reflexivity).
  assert (H3 : Clustered.available (Clustered.redis cl_one_member_state) = true)
    by (vm_compute; reflexivity).
  split; [exact H1 | split; [vm_compute; reflexivity |]].
  exact (clustered_cleanup_drops_snapshot _ _ _ _ H1 H2 H3).
Defined.

(** ** The IP-limited gateway: joins, messages, audio quality and generation limits *)

Lemma remove_user_app (l1 l2 : list string) (x : string) :
  remove_user (l1 ++ l2) x = remove_user l1 x ++ remove_user l2 x.
Proof. unfold remove_user. apply filter_app. Qed.


Lemma set_users_twice (r : Room) (a b : list string) : set_users (set_users r a) b = set_users r b.
Proof. by destruct r. Qed.

Lemma ip_join_existing (c ip code : string) (ty : RoomType) (now : Z) (s : IpLimited.State)
    (room : Room) :
  IpLimited.rooms s !! code = Some room ->
  fst (IpLimited.joinRoom c ip code ty now s) =
    RJoinedLegacy (default [] (messages room)) (Z.of_nat (length (users room)) + 1) /\
  IpLimited.rooms (snd (IpLimited.joinRoom c ip code ty now s)) =
    <[code:=set_users room (users room ++ [c])]> (IpLimited.rooms s).
Proof.
  intros Hr. unfold IpLimited.joinRoom. rewrite Hr. split.
  - destruct (type room); simpl; rewrite length_app; simpl; f_equal; lia.
  - simpl. destruct (type room); reflexivity.
Qed.

(** X17: the IP-limited [joinRoom] does not check membership: the same client
    joining an existing room twice is appended twice and the member
    count grows by two; one leave then removes every copy of it. *)
Theorem iplimited_double_join_leave (s : IpLimited.State) (c ip code : string) (ty : RoomType)
    (now : Z) (room : Room) :
  IpLimited.rooms s !! code = Some room ->
  exists s1 s2,
    IpLimited.joinRoom c ip code ty now s =
      (RJoinedLegacy (default [] (messages room)) (Z.of_nat (length (users room)) + 1), s1) /\
    IpLimited.joinRoom c ip code ty now s1 =
      (RJoinedLegacy (default [] (messages room)) (Z.of_nat (length (users room)) + 2), s2) /\
    IpLimited.rooms s2 !! code = Some (set_users room (users room ++ [c; c])) /\
    IpLimited.rooms (snd (IpLimited.leaveRoom c code s2)) !! code =
      match remove_user (users room) c with
      | [] => None
      | us => Some (set_users room us)
      end.
Proof.
  intros Hr.
  destruct (ip_join_existing c ip code ty now s room Hr) as [J1 R1].
  destruct (IpLimited.joinRoom c ip code ty now s) as [r1 s1] eqn:E1. simpl in J1, R1. subst r1.
  assert (Hr1 : IpLimited.rooms s1 !! code = Some (set_users room (users room ++ [c])))
    by (rewrite R1; apply lookup_insert_eq).
  destruct (ip_join_existing c ip code ty now s1 _ Hr1) as [J2 R2].
  destruct (IpLimited.joinRoom c ip code ty now s1) as [r2 s2] eqn:E2. simpl in J2, R2. subst r2.
  assert (Hr2 : IpLimited.rooms s2 !! code = Some (set_users room (users room ++ [c; c]))).
  { rewrite R2, lookup_insert_eq, set_users_twice. simpl. by rewrite <- app_assoc. }
  exists s1, s2. split; [reflexivity | split; [| split; [exact Hr2 |]]].
  - rewrite E2. f_equal. f_equal. rewrite length_app. cbn [length]. lia.
  - unfold IpLimited.leaveRoom. rewrite Hr2. simpl.
    assert (Hin : includes (users room ++ [c; c]) c = true) by (apply includes_spec; set_solver).
    rewrite Hin.
    assert (Hrm : remove_user (users room ++ [c; c]) c = remove_user (users room) c).
    { rewrite remove_user_app. change [c; c] with ([c] ++ [c]).
      rewrite (remove_user_app [c] [c]), remove_user_self. apply app_nil_r. }
    rewrite Hrm.
    destruct (remove_user (users room) c) as [|u us] eqn:E; simpl.
    + by rewrite lookup_delete_eq.
    + rewrite set_users_twice. destruct (type room); simpl; by rewrite lookup_insert_eq.
Qed.

Lemma iplimited_double_join_leave_witness :
  IpLimited.rooms ip_one_member_state !! "550000"%string = Some (mkRoom "A" ["A"] Text (Some []) None) /\
  exists s1 s2,
    IpLimited.joinRoom "B" "1.2.3.4" "550000" Text 1 ip_one_member_state = (RJoinedLegacy [] 2, s1) /\
    IpLimited.joinRoom "B" "1.2.3.4" "550000" Text 1 s1 = (RJoinedLegacy [] 3, s2) /\
    IpLimited.rooms s2 !! "550000"%string = Some (mkRoom "A" ["A"; "B"; "B"] Text (Some []) None) /\
    IpLimited.rooms (snd (IpLimited.leaveRoom "B" "550000" s2)) !! "550000"%string =
      Some (mkRoom "A" ["A"] Text (Some []) None).
Proof.
  assert (H : IpLimited.rooms ip_one_member_state !! "550000"%string =
              Some (mkRoom "A" ["A"] Text (Some []) None)) by (vm_compute; reflexivity).
  split; [exact H |].
  exact (iplimited_double_join_leave _ "B" "1.2.3.4" "550000" Text 1 _ H).
Defined.

Lemma set_messages_twice (r : Room) (a b : option (list Message)) :
  set_messages (set_messages r a) b = set_messages r b.
Proof. by destruct r. Qed.

(** X18: the IP-limited [handleSendMessage] stores every message of a member
    of a text room with at least two members with its raw text, without
    validation, sanitization or a cap on the buffer. *)
Theorem iplimited_send_keeps_raw (s : IpLimited.State) (client code : string) (room : Room)
    (ms : list Message) (batch : list (jstr * Z)) :
  IpLimited.rooms s !! code = Some room -> client ∈ users room ->
  (2 <= length (users room))%nat -> messages room = Some ms ->
  IpLimited.rooms (IpLimited.send_all client code batch s) !! code =
    Some (set_messages room (Some (ms ++ map (fun tn => mkMessage client tn.1 tn.2) batch))).
Proof.
  revert s room ms. induction batch as [|[t n] batch IH]; intros s room ms Hr Hc Hl Hm.
  - simpl. rewrite app_nil_r, Hr, <- Hm. by destruct room.
  - unfold IpLimited.send_all. cbn [fold_left].
    assert (Hinc : includes (users room) client = true) by (by apply includes_spec).
    assert (Hlt : (length (users room) <? 2)%nat = false) by (apply Nat.ltb_ge; lia).
    assert (Hs : IpLimited.rooms (snd (IpLimited.handleSendMessage client code t n s)) =
                 <[code:=set_messages room (Some (ms ++ [mkMessage client t n]))]> (IpLimited.rooms s)).
    { unfold IpLimited.handleSendMessage. rewrite Hr, Hinc, Hlt, Hm. reflexivity. }
    pose proof (IH (snd (IpLimited.handleSendMessage client code t n s))
                  (set_messages room (Some (ms ++ [mkMessage client t n])))
                  (ms ++ [mkMessage client t n])) as IH'.
    unfold IpLimited.send_all in IH'. cbn [fst snd] in IH' |- *. rewrite IH'.
    + rewrite set_messages_twice, <- app_assoc. reflexivity.
    + rewrite Hs. apply lookup_insert_eq.
    + exact Hc.
    + exact Hl.
    + reflexivity.
Qed.

Lemma iplimited_send_keeps_raw_witness :
  IpLimited.rooms ip_two_member_state !! "550000"%string =
    Some (mkRoom "A" ["A"; "B"] Text (Some []) None) /\
  IpLimited.rooms (IpLimited.send_all "A" "550000" [(js "<b>hi</b>", 1)] ip_two_member_state)
    !! "550000"%string =
    Some (mkRoom "A" ["A"; "B"] Text (Some [mkMessage "A" (js "<b>hi</b>") 1]) None).
Proof.
  assert (H1 : IpLimited.rooms ip_two_member_state !! "550000"%string =
               Some (mkRoom "A" ["A"; "B"] Text (Some []) None)) by (vm_compute; reflexivity).
  assert (H2 : "A"%string ∈ users (mkRoom "A" ["A"; "B"] Text (Some []) None))
    by (simpl; set_solver).
  assert (H3 : (2 <= length (users (mkRoom "A" ["A"; "B"] Text (Some []) None)))%nat)
    by (simpl; lia).
  assert (H4 : messages (mkRoom "A" ["A"; "B"] Text (Some []) None) = Some []) by reflexivity.
  split; [exact H1 |].
  exact (iplimited_send_keeps_raw _ _ _ _ _ [(js "<b>hi</b>", 1)] H1 H2 H3 H4).
Defined.


(** X19: the IP-limited [handleAudioQuality] always acknowledges success, and
    of two quality updates to the same room only the last one is
    visible in the registry. *)
Theorem iplimited_audio_last_wins (s : IpLimited.State) (c1 c2 code : string)
    (q1 q2 : IpLimited.Quality) :
  fst (fst (IpLimited.handleAudioQuality c1 code q1 s)) = AckSuccess /\
  IpLimited.rooms (snd (fst (IpLimited.handleAudioQuality c2 code q2
                              (snd (fst (IpLimited.handleAudioQuality c1 code q1 s)))))) =
  IpLimited.rooms (snd (fst (IpLimited.handleAudioQuality c2 code q2 s))).
Proof.
  unfold IpLimited.handleAudioQuality.
  destruct (IpLimited.rooms s !! code) as [room|] eqn:Hr;
    [| split; [reflexivity | cbn [fst snd]; rewrite Hr; reflexivity]].
  destruct (type room) eqn:Ht;
    [split; [reflexivity | cbn [fst snd]; rewrite Hr, Ht; reflexivity] ..|].
  destruct (audioSettings room) as [a|] eqn:Ha;
    [| split; [reflexivity | cbn [fst snd]; rewrite Hr, Ht, Ha; reflexivity]].
  split; [reflexivity |]. cbn [fst snd IpLimited.rooms IpLimited.set_rooms].
  rewrite lookup_insert_eq. cbn [type audioSettings creator users messages].
  cbn [IpLimited.rooms IpLimited.set_rooms].
  rewrite insert_insert_eq. reflexivity.
Qed.

Lemma check_keeps_blocked (ip ip' : string) (now : Z) (m : gmap string IpLimited.IPTracker) :
  match snd (IpLimited.checkRateLimit ip IpLimited.Generation now m) !! ip' with
  | Some t => IpLimited.blockedUntil t | None => None end =
  match m !! ip' with Some t => IpLimited.blockedUntil t | None => None end.
Proof.
  unfold IpLimited.checkRateLimit.
  set (t := match m !! ip with
            | Some t => t
            | None => IpLimited.mkTracker (IpLimited.mkRateLimit 0 (now + 60000))
                        (IpLimited.mkRateLimit 0 (now + 60000)) None
            end).
  assert (Hb : IpLimited.blockedUntil t =
               match m !! ip with Some t => IpLimited.blockedUntil t | None => None end)
    by (unfold t; destruct (m !! ip); reflexivity).
  assert (H : forall t', IpLimited.blockedUntil t' = IpLimited.blockedUntil t ->
     match <[ip:=t']> m !! ip' with Some t => IpLimited.blockedUntil t | None => None end =
     match m !! ip' with Some t => IpLimited.blockedUntil t | None => None end).
  { intros t' Ht'. destruct (decide (ip = ip')) as [<-|Hne].
    - rewrite lookup_insert_eq. congruence.
    - rewrite lookup_insert_ne by done. reflexivity. }
  cbv zeta. destruct (IpLimited.blocked t now); [apply H; reflexivity |].
  destruct (_ <=? _); apply H; reflexivity.
Qed.

(** X20: room-code generation checks in the IP-limited gateway never set or
    clear any IP's hard block. *)
Theorem iplimited_generation_never_blocks (ip ip' : string) (times : list Z)
    (m : gmap string IpLimited.IPTracker) :
  match snd (IpLimited.check_all ip IpLimited.Generation times m) !! ip' with
  | Some t => IpLimited.blockedUntil t | None => None end =
  match m !! ip' with Some t => IpLimited.blockedUntil t | None => None end.
Proof.
  revert m. induction times as [|now rest IH]; intros m; [reflexivity |].
  cbn [IpLimited.check_all].
  pose proof (check_keeps_blocked ip ip' now m) as H1.
  destruct (IpLimited.checkRateLimit ip IpLimited.Generation now m) as [ok m1]. simpl in H1.
  specialize (IH m1).
  destruct (IpLimited.check_all ip IpLimited.Generation rest m1) as [oks m2]. simpl in *.
  congruence.
Qed.

(** ** The message buffer cap of the in-memory gateway *)

Section BufferCap.
Import Unified.

Lemma store_message_cap (cap : nat) (ms : list Message) (m : Message) :
  (length ms <= cap)%nat -> (length (store_message cap ms m) <= cap)%nat.
Proof.
  intros H. unfold store_message.
  destruct (cap <? length (ms ++ [m]))%nat eqn:E.
  - unfold slice_last. rewrite length_drop. apply Nat.ltb_lt in E. lia.
  - apply Nat.ltb_ge in E. exact E.
Qed.

Lemma buf_insert (rs : gmap string Room) (code : string) (r : Room) :
  (forall c r' ms, rs !! c = Some r' -> messages r' = Some ms -> (length ms <= 100)%nat) ->
  (forall ms, messages r = Some ms -> (length ms <= 100)%nat) ->
  forall c r' ms, <[code:=r]> rs !! c = Some r' -> messages r' = Some ms -> (length ms <= 100)%nat.
Proof.
  intros Hi Hr c r' ms H. rewrite lookup_insert in H. case_decide; simplify_eq/=; eauto.
Qed.

Lemma buf_delete (rs : gmap string Room) (code : string) :
  (forall c r' ms, rs !! c = Some r' -> messages r' = Some ms -> (length ms <= 100)%nat) ->
  forall c r' ms, delete code rs !! c = Some r' -> messages r' = Some ms -> (length ms <= 100)%nat.
Proof.
  intros Hi c r' ms H. apply lookup_delete_Some in H as [_ H]. eauto.
Qed.

Lemma buf_leave (c code : string) (s : State) (r : Resp) (s' : State) :
  leaveRoom c code s = (r, s') ->
  (forall c r ms, rooms s !! c = Some r -> messages r = Some ms -> (length ms <= 100)%nat) ->
  forall c r ms, rooms s' !! c = Some r -> messages r = Some ms -> (length ms <= 100)%nat.
Proof.
  intros H Hi. unfold leaveRoom in H. destruct (rooms s !! code) as [room|] eqn:Hr; [| by simplify_eq].
  destruct (includes _ _); [| by simplify_eq].
  destruct (_ =? 0)%nat; [| destruct (type room)]; simplify_eq/=;
    try apply buf_delete; (apply buf_insert; [exact Hi | intros ms' Hm'; simpl in Hm'; eauto]).
Qed.

Lemma buf_step (s s' : State) :
  step s s' ->
  (forall c r ms, rooms s !! c = Some r -> messages r = Some ms -> (length ms <= 100)%nat) ->
  forall c r ms, rooms s' !! c = Some r -> messages r = Some ms -> (length ms <= 100)%nat.
Proof.
  intros Hst Hi. destruct Hst as
    [c ty now draws s r s' H | c code ek now s r s' H | c code t now s r s' H
    | c code s r s' H | c code s r s' H | c code s r s' H | c s | now s
    | c code n ft sz now sfx s r s' H | c tid i s r s' H | s s' H].
  - unfold createRoom in H. case_match; simplify_eq/=.
    apply buf_insert; [exact Hi |]. intros ms Hm. destruct ty; simplify_eq/=; lia.
  - unfold joinRoom, js_get in H. destruct (rooms s !! code) as [room|] eqn:Hr;
      [| repeat case_match; by simplify_eq].
    destruct (mismatch ek room); [by simplify_eq |].
    assert (Hok : forall ms, messages (if includes (users room) c then room
                     else set_users room (users room ++ [c])) = Some ms -> (length ms <= 100)%nat)
      by (intros ms Hm; destruct (includes (users room) c); eauto).
    destruct (type _); simplify_eq/=; apply buf_insert; auto.
  - unfold handleSendMessage in H. destruct (rooms s !! code) as [room|] eqn:Hr; [| by simplify_eq].
    destruct (negb _); [by simplify_eq |]. destruct (_ <? 2)%nat; [by simplify_eq |].
    destruct (validateAndSanitizeMessage t); [| by simplify_eq].
    destruct (messages room) as [ms0|] eqn:Hm.
    + injection H as <- <-. simpl. apply buf_insert; [exact Hi |].
      intros ms Hms. simpl in Hms. injection Hms as <-. apply store_message_cap. eauto.
    + injection H as <- <-. simpl. exact Hi.
  - exact (buf_leave c code s r s' H Hi).
  - unfold handleLeaveVoiceRoom in H. apply (buf_leave c code _ r s' H).
    intros c' r' ms Hr' Hm. apply (Hi c' r' ms); [| exact Hm].
    rewrite <- Hr'. repeat case_match; reflexivity.
  - unfold handleEndCall in H. simplify_eq/=. by apply buf_delete.
  - intros code r ms H Hm. simpl in H. rewrite lookup_omap in H.
    destruct (rooms s !! code) as [room|] eqn:Hr; simpl in H; [| discriminate].
    unfold disconnect_room in H. repeat case_match; simplify_eq/=; eauto.
  - intros code r ms H Hm. simpl in H. apply map_lookup_filter_Some in H as [H _]. eauto.
  - unfold handleSendFile in H. repeat case_match; simplify_eq/=; exact Hi.
  - unfold handleFileChunk in H. repeat case_match; simplify_eq/=; exact Hi.
  - unfold fireTimer in H. repeat case_match; simplify_eq/=; exact Hi.
Qed.

End BufferCap.

(** X21: in every reachable state of the in-memory gateway each stored
    message buffer holds at most [MAX_MESSAGES_PER_ROOM] messages. *)
Theorem reachable_buffer_cap (s : Unified.State) (code : string) (r : Room) (ms : list Message) :
  Unified.reachable s -> Unified.rooms s !! code = Some r -> messages r = Some ms ->
  (length ms <= Unified.MAX_MESSAGES_PER_ROOM)%nat.
Proof.
  unfold Unified.reachable. intros Hreach.
  assert (H0 : forall c r ms, Unified.rooms Unified.init !! c = Some r ->
                 messages r = Some ms -> (length ms <= 100)%nat)
    by (intros c r' ms' H; simpl in H; by rewrite lookup_empty in H).
  revert H0. induction Hreach as [| x y z Hxy _ IH].
  - intros H0 Hr Hm. exact (H0 _ _ _ Hr Hm).
  - intros Hx. apply IH. exact (buf_step x y Hxy Hx).
Qed.

Lemma reachable_buffer_cap_witness :
  Unified.rooms two_member_state !! "550000"%string =
    Some (mkRoom "A" ["A"; "B"] Text (Some []) None) /\
  (length (@nil Message) <= Unified.MAX_MESSAGES_PER_ROOM)%nat.
Proof.
  assert (H1 : Unified.rooms two_member_state !! "550000"%string =
               Some (mkRoom "A" ["A"; "B"] Text (Some []) None)) by (vm_compute; reflexivity).
  assert (H2 : messages (mkRoom "A" ["A"; "B"] Text (Some []) None) = Some []) by reflexivity.
  split; [exact H1 |].
  exact (reachable_buffer_cap _ _ _ _ two_member_state_reachable H1 H2).
Defined.
